(** * Code_for_thesis.py: a shallow embedding of the profile plotter

    The program reads (distance, elevation, code) rows from a spreadsheet
    file, groups adjacent rows with equal code into series, and draws them
    with matplotlib from a small tkinter form.

    Python values are modelled by a tagged union, exceptions by a result
    type, and the calls into matplotlib and tkinter by an event trace.
    The interpreter's own pieces the program relies on ([os.path.splitext],
    [itertools.groupby], [sorted], [zip]) are written out after their
    CPython definitions (posixpath flavour for paths). *)

From Stdlib Require Import List String Ascii Bool Arith ZArith QArith Lia.
From Stdlib Require Import Permutation Sorted DecimalString.
Import ListNotations.

Local Close Scope Q_scope.
Local Open Scope string_scope.
Local Open Scope list_scope.

#[local] Set Default Proof Using "Type".

(* ===================================================================== *)
(** ** Exceptions and the result monad                                    *)
(* ===================================================================== *)

(** [class PlottingError(Exception)] carries a [message]; the others are
    the built-in [Exception] subclasses the pipeline can raise, and
    [LibraryError] stands for whatever csv, xlrd or matplotlib raise. *)
Inductive exn : Type :=
| PlottingError (message : string)
| ValueError (detail : string)
| IndexError (detail : string)
| KeyError (detail : string)
| OSError (detail : string)
| LibraryError (detail : string).

Inductive result (A : Type) : Type :=
| Ok (a : A)
| Raise (e : exn).
Arguments Ok {A} a.
Arguments Raise {A} e.

Definition bind {A B} (m : result A) (k : A -> result B) : result B :=
  match m with
  | Ok a => k a
  | Raise e => Raise e
  end.

(** [try: body except: handler] with a bare [except], which catches
    everything. *)
Definition try_except {A} (body : result A) (handler : exn -> result A)
  : result A :=
  match body with
  | Ok a => Ok a
  | Raise e => handler e
  end.

Declare Scope result_scope.
Delimit Scope result_scope with res.
Notation "x <- m ;; k" := (bind m (fun x => k))
  (at level 100, m at next level, right associativity) : result_scope.
Notation "' p <- m ;; k" := (bind m (fun x => match x with p => k end))
  (at level 100, p pattern, m at next level, right associativity)
  : result_scope.

(** A list comprehension whose element expression may raise: elements are
    evaluated left to right and the first exception aborts the whole
    comprehension. *)
Fixpoint comprehension {A B} (f : A -> result B) (l : list A)
  : result (list B) :=
  match l with
  | [] => Ok []
  | a :: l' =>
      (b <- f a ;;
       bs <- comprehension f l' ;;
       Ok (b :: bs))%res
  end.

(* ===================================================================== *)
(** ** Strings and paths                                                  *)
(* ===================================================================== *)

(** [s.rfind(c)] for a one-character [c]: the highest index of [c], or -1. *)
Fixpoint rfind_from (c : ascii) (s : string) (i last : Z) : Z :=
  match s with
  | EmptyString => last
  | String a s' =>
      rfind_from c s' (i + 1) (if Ascii.eqb a c then i else last)
  end.

Definition rfind (s : string) (c : ascii) : Z := rfind_from c s 0 (-1).

(** Slices [s[:i]] and [s[i:]] for a non-negative [i]. *)
Definition slice_to (s : string) (i : Z) : string :=
  substring 0 (Z.to_nat i) s.
Definition slice_from (s : string) (i : Z) : string :=
  substring (Z.to_nat i) (String.length s - Z.to_nat i) s.

(** The loop of [genericpath._splitext] that skips the leading dots of the
    last path component: [n] iterations remain from [filenameIndex]; it
    answers whether a character other than the dot was met. *)
Fixpoint skip_leading_dots (p : string) (filenameIndex : Z) (n : nat)
  : bool :=
  match n with
  | O => false
  | S n' =>
      match String.get (Z.to_nat filenameIndex) p with
      | Some c =>
          if Ascii.eqb c "."%char
          then skip_leading_dots p (filenameIndex + 1) n'
          else true
      | None => true
      end
  end.

(** [genericpath._splitext(p, sep, altsep=None, extsep)]. *)
Definition _splitext (p : string) (sep extsep : ascii) : string * string :=
  let sepIndex := rfind p sep in
  let dotIndex := rfind p extsep in
  if (sepIndex <? dotIndex)%Z
  then
    if skip_leading_dots p (sepIndex + 1)
         (Z.to_nat (dotIndex - (sepIndex + 1)))
    then (slice_to p dotIndex, slice_from p dotIndex)
    else (p, "")
  else (p, "").

(** [os.path.splitext]. *)
Definition splitext (p : string) : string * string :=
  _splitext p "/"%char "."%char.

(** [s.rstrip('/')]. *)
Fixpoint rstrip_sep (s : string) : string :=
  match s with
  | EmptyString => EmptyString
  | String a s' =>
      match rstrip_sep s' with
      | EmptyString => if Ascii.eqb a "/"%char then EmptyString
                       else String a EmptyString
      | t => String a t
      end
  end.

(** [os.path.dirname]: the head up to the last separator, with trailing
    separators removed unless the head consists of separators only. *)
Definition dirname (p : string) : string :=
  let i := (rfind p "/"%char + 1)%Z in
  let head := slice_to p i in
  match rstrip_sep head with
  | EmptyString => head
  | stripped => stripped
  end.

(** [s.lower()] on ASCII letters. *)
Definition lower_char (c : ascii) : ascii :=
  let n := nat_of_ascii c in
  if Nat.leb 65 n && Nat.leb n 90 then ascii_of_nat (n + 32) else c.

Fixpoint lower (s : string) : string :=
  match s with
  | EmptyString => EmptyString
  | String a s' => String (lower_char a) (lower s')
  end.

(** [s.endswith(suffix)]. *)
Definition endswith (s suffix : string) : bool :=
  let n := String.length s in
  let m := String.length suffix in
  Nat.leb m n && String.eqb (substring (n - m) m s) suffix.

(* ===================================================================== *)
(** ** Library pieces that do not depend on the data                      *)
(* ===================================================================== *)

Section Builtins.
Context {A K : Type}.

(** [itertools.groupby(iterable, key)], consumed the way [make_series]
    consumes it: every group is exhausted before the next one is asked
    for.  [groupby_run tgtkey it] reads the shared iterator [it] while
    the current group has target key [tgtkey]; it returns the rest of
    that group and the groups that follow.  As in CPython, the key of a
    new value is compared with the target key of the running group. *)
Variable keyfunc : A -> result K.
Variable key_eq : K -> K -> bool.

Fixpoint groupby_run (tgtkey : K) (it : list A)
  : result (list A * list (K * list A)) :=
  match it with
  | [] => Ok ([], [])
  | currvalue :: it' =>
      (currkey <- keyfunc currvalue ;;
       if key_eq currkey tgtkey
       then
         ' (members, groups) <- groupby_run tgtkey it' ;;
         Ok (currvalue :: members, groups)
       else
         ' (members, groups) <- groupby_run currkey it' ;;
         Ok ([], (currkey, currvalue :: members) :: groups))%res
  end.

Definition groupby (iterable : list A) : result (list (K * list A)) :=
  match iterable with
  | [] => Ok []
  | currvalue :: it =>
      (currkey <- keyfunc currvalue ;;
       ' (members, groups) <- groupby_run currkey it ;;
       Ok ((currkey, currvalue :: members) :: groups))%res
  end.

(** [sorted(l, key=f)]: the keys are computed once, left to right (and
    may raise); the sort is stable.  Any stable sort returns the same
    list, so insertion from the right stands for Timsort. *)
Fixpoint insert_keyed (k : nat) (a : A) (l : list (nat * A))
  : list (nat * A) :=
  match l with
  | [] => [(k, a)]
  | (k', a') :: l' =>
      if Nat.leb k k' then (k, a) :: l else (k', a') :: insert_keyed k a l'
  end.

Definition sort_keyed (l : list (nat * A)) : list (nat * A) :=
  fold_right (fun ka acc => insert_keyed (fst ka) (snd ka) acc) [] l.

(** The order [sort_keyed] sorts by. *)
Definition key_le (x y : nat * A) : Prop := fst x <= fst y.

Definition sorted (l : list A) (key : A -> result nat) : result (list A) :=
  (decorated <- comprehension (fun a => k <- key a ;; Ok (k, a)) l ;;
   Ok (map snd (sort_keyed decorated)))%res.

(** [zip] applied to the unpacked rows (star argument): as many tuples
    as the shortest row has entries, the j-th made of the j-th entry of
    every row; no tuple at all for no rows. *)
Definition zip_star (dflt : A) (rows : list (list A)) : list (list A) :=
  match rows with
  | [] => []
  | r :: rs =>
      let n := fold_left Nat.min (map (@List.length A) rs) (List.length r) in
      map (fun j => map (fun row => nth j row dflt) rows) (seq 0 n)
  end.

(** [a, b = iterable]. *)
Definition unpack2 (l : list A) : result (A * A) :=
  match l with
  | [a; b] => Ok (a, b)
  | _ => Raise (ValueError "wrong number of values to unpack (expected 2)")
  end.

(** [(x, y, code) = row]. *)
Definition unpack3 (l : list A) : result (A * A * A) :=
  match l with
  | [x; y; code] => Ok (x, y, code)
  | _ => Raise (ValueError "wrong number of values to unpack (expected 3)")
  end.

(** [collections.OrderedDict(pairs)]: a later pair with a key already
    present replaces the value and keeps the key's first position. *)
Fixpoint od_setitem (d : list (string * A)) (k : string) (v : A)
  : list (string * A) :=
  match d with
  | [] => [(k, v)]
  | (k', v') :: d' =>
      if String.eqb k' k then (k', v) :: d' else (k', v') :: od_setitem d' k v
  end.

Definition OrderedDict (pairs : list (string * A)) : list (string * A) :=
  fold_left (fun d kv => od_setitem d (fst kv) (snd kv)) pairs [].
End Builtins.

(* ===================================================================== *)
(** ** Configuration block at the top of the script                       *)
(* ===================================================================== *)

(** Lines 11-19: code, (r, g, b) with components in [0, 255]. *)
Definition code_colors_table : list (string * list Z) :=
  [ ("Q1ta", [130; 130; 130]);
    ("Q3a",  [130; 130; 130]);
    ("Q7u",  [43; 133; 161]);
    ("Q8i",  [194; 158; 215]);
    ("Q8c",  [255; 207; 255]);
    ("Q9w",  [79; 122; 56]);
    ("eQw",  [255; 127; 127]) ]%Z.

Definition x_axis_label : string := "Distance, East-West (m)".
Definition y_axis_label : string := "Elevation (m)".
Definition x_min : Z := 0.
Definition x_max : Z := 20250.
Definition y_min : Z := 120.
Definition y_max : Z := 530.

Definition legend_positions : list string :=
  ["Best"; "Upper Right"; "Upper Left"; "Lower Left"; "Lower Right";
   "Center Left"; "Center Right"; "Lower Center"; "Upper Center"; "Center"].

(* ===================================================================== *)
(** ** Data                                                               *)
(* ===================================================================== *)

(** The Python values that flow through the pipeline: numbers ([float]
    after the csv reader's cast, numeric cells of a sheet) and strings
    (codes, text cells).  [num] is the type of Python floats. *)
Inductive value (num : Type) : Type :=
| VNum (x : num)
| VStr (s : string).
Arguments VNum {num} x.
Arguments VStr {num} s.

(** A row [[distance, elevation, code]] is a Python list of values; a
    series is the tuple [(code, points)] with points [[distance,
    elevation]]. *)
Definition row (num : Type) : Type := list (value num).
Definition series (num : Type) : Type := (value num * list (row num))%type.

(** The coded point of the data model, and the row that carries it. *)
Definition coded_point (num : Type) : Type := (num * num * string)%type.
Definition row_of {num} (p : coded_point num) : row num :=
  let '(distance, elevation, code) := p in
  [VNum distance; VNum elevation; VStr code].
Definition point_of {num} (p : coded_point num) : row num :=
  let '(distance, elevation, _) := p in
  [VNum distance; VNum elevation].
Definition code_of {num} (p : coded_point num) : string := snd p.

(** [class Colors]: the ordered dictionary and the tuple of its keys. *)
Record Colors (num : Type) : Type := mkColors {
  _colors : list (string * list num);
  _keys : list string
}.
Arguments mkColors {num} _ _.
Arguments _colors {num} _.
Arguments _keys {num} _.

(** Calls that leave the program: matplotlib ([plt], [ax]), the tkinter
    message box and [print]. *)
Inductive event (num : Type) : Type :=
| plt_subplots
| ax_set_xlim (lo hi : Z)
| ax_set_ylim (lo hi : Z)
| plt_plot (x_data y_data : list (value num)) (color : list num)
| ax_legend (custom_lines : list (list num)) (labels : list (value num))
            (loc : string)
| plt_xlabel (label : string)
| plt_ylabel (label : string)
| plt_savefig (fname : string)
| plt_show
| showerror (message : string)
| print (err : exn).
Arguments plt_subplots {num}.
Arguments ax_set_xlim {num} lo hi.
Arguments ax_set_ylim {num} lo hi.
Arguments plt_plot {num} x_data y_data color.
Arguments ax_legend {num} custom_lines labels loc.
Arguments plt_xlabel {num} label.
Arguments plt_ylabel {num} label.
Arguments plt_savefig {num} fname.
Arguments plt_show {num}.
Arguments showerror {num} message.
Arguments print {num} err.

(** The fields of [class View] that the callbacks read and write. *)
Record View : Type := mkView {
  selected_file : string;
  output_file : string;
  input_dialog : string;
  output_dialog : string;
  working_dir : string;
  legend_position : string
}.

(** Statements that talk to the outside: a computation reads the trace of
    calls made so far, extends it, and returns or raises. *)
Definition io (num A : Type) : Type :=
  list (event num) -> result A * list (event num).

Definition io_ret {num A} (a : A) : io num A := fun tr => (Ok a, tr).

Definition io_bind {num A B} (m : io num A) (k : A -> io num B) : io num B :=
  fun tr =>
    match m tr with
    | (Ok a, tr') => k a tr'
    | (Raise e, tr') => (Raise e, tr')
    end.

Definition lift {num A} (r : result A) : io num A := fun tr => (r, tr).

(** [try: body except ...: handler]; the handler chooses by the class of
    the exception. *)
Definition io_try {num A} (body : io num A) (handler : exn -> io num A)
  : io num A :=
  fun tr =>
    match body tr with
    | (Ok a, tr') => (Ok a, tr')
    | (Raise e, tr') => handler e tr'
    end.

Declare Scope io_scope.
Delimit Scope io_scope with io.
Notation "x <- m ;; k" := (io_bind m (fun x => k))
  (at level 100, m at next level, right associativity) : io_scope.
Notation "' p <- m ;; k" := (io_bind m (fun x => match x with p => k end))
  (at level 100, p pattern, m at next level, right associativity)
  : io_scope.
Notation "m ;;; k" := (io_bind m (fun _ => k))
  (at level 100, right associativity) : io_scope.

(** [for a in l: body(a)]. *)
Fixpoint for_each {num A} (l : list A) (body : A -> io num unit)
  : io num unit :=
  match l with
  | [] => io_ret tt
  | a :: l' => (body a ;;; for_each l' body)%io
  end.

(* ===================================================================== *)
(** ** Notions the statements below are phrased with                      *)
(* ===================================================================== *)

(** The number of maximal runs of adjacent equal codes: a run starts at the
    first code and at every code that differs from the one just before
    it. *)
Fixpoint maximal_runs_after (prev : option string) (codes : list string)
  : nat :=
  match codes with
  | [] => 0
  | c :: cs =>
      match prev with
      | Some c' => if String.eqb c' c then 0 else 1
      | None => 1
      end + maximal_runs_after (Some c) cs
  end.

Definition maximal_runs (codes : list string) : nat :=
  maximal_runs_after None codes.

(** The position of the last [c] in [s], counted from the front. *)
Fixpoint last_index (c : ascii) (s : string) : option nat :=
  match s with
  | EmptyString => None
  | String a s' =>
      match last_index c s' with
      | Some j => Some (S j)
      | None => if Ascii.eqb a c then Some 0 else None
      end
  end.

(** [c] occurs nowhere in [s]. *)
Definition free_of (c : ascii) (s : string) : Prop := last_index c s = None.


(** A data row of a delimited-text file is well formed when it has exactly
    three fields and the first two are accepted by [float]. *)
Definition well_formed_row {num} (float : string -> option num)
           (fields : list string) : bool :=
  match fields with
  | [x; y; _] =>
      match float x, float y with
      | Some _, Some _ => true
      | _, _ => false
      end
  | _ => false
  end.

(** A data row is malformed when its field count is not three or one of
    its first two fields is refused by [float]. *)
Definition malformed_row {num} (float : string -> option num)
           (fields : list string) : Prop :=
  List.length fields <> 3 \/
  exists x y code,
    fields = [x; y; code] /\ (float x = None \/ float y = None).

(** The coded point a well-formed row stands for. *)
Definition parsed_row {num} (float : string -> option num)
           (fields : list string) (point : row num) : Prop :=
  exists x y code x' y',
    fields = [x; y; code] /\ float x = Some x' /\ float y = Some y' /\
    point = [VNum x'; VNum y'; VStr code].

(* ===================================================================== *)
(** ** A small machine to run the script on                               *)
(* ===================================================================== *)

(** Numbers are rationals here.  [float] reads integer literals only;
    [i/255.] is the exact quotient. *)
Definition demo_float (s : string) : option Q :=
  match NilEmpty.int_of_string s with
  | Some d => Some (inject_Z (Z.of_int d))
  | None => None
  end.

Definition demo_float_eq (x y : Q) : bool := Qeq_bool x y.

Definition demo_float_str (x : Q) : string :=
  NilEmpty.string_of_int (Z.to_int (Qnum x)) ++ "/" ++
  NilEmpty.string_of_uint (Pos.to_uint (Qden x)).

Definition demo_div255 (i : Z) : Q := Qmake i 255.

Definition demo_value_eqb (a b : value Q) : bool :=
  match a, b with
  | VNum x, VNum y => demo_float_eq x y
  | VStr s, VStr t => String.eqb s t
  | _, _ => false
  end.

(** A set that hands out its members in the order they were first added. *)
Fixpoint demo_set_add (v : value Q) (members : list (value Q))
  : list (value Q) :=
  match members with
  | [] => [v]
  | m :: members' =>
      if demo_value_eqb m v then members else m :: demo_set_add v members'
  end.

Definition demo_set_iter (l : list (value Q)) : list (value Q) :=
  fold_left (fun members v => demo_set_add v members) l [].

Definition demo_header : list string := ["Distance"; "Elevation"; "Code"].

Definition demo_open_csv (filename : string)
  : result (list (list string)) :=
  if String.eqb filename "/data/profile.csv" then
    Ok [demo_header;
        ["0"; "200"; "Q3a"]; ["100"; "210"; "Q3a"];
        ["200"; "250"; "Q7u"]; ["300"; "240"; "Q3a"]]
  else if String.eqb filename "/data/broken.csv" then
    Ok [demo_header; ["0"; "200"; "Q3a"]; ["100"; "n/a"; "Q3a"]]
  else Raise (OSError ("No such file or directory: " ++ filename)).

Definition demo_open_workbook (filename : string)
  : result (list (list (row Q))) :=
  Raise (OSError ("No such file or directory: " ++ filename)).

(** matplotlib never raises. *)
Definition demo_backend (tr : list (event Q)) (ev : event Q) : option exn :=
  None.

(** A workbook of one sheet: the header row and two data rows. *)
Definition demo_sheet : list (row Q) :=
  [ [VStr "Distance"; VStr "Elevation"; VStr "Code"];
    [VNum 0; VNum 200; VStr "Q3a"];
    [VNum 100; VNum 210; VStr "Q7u"] ]%Q.

Definition demo_open_workbook_survey (filename : string)
  : result (list (list (row Q))) :=
  if String.eqb filename "/data/survey.xls" then Ok [demo_sheet]
  else Raise (OSError ("No such file or directory: " ++ filename)).

(** The configuration A, B of two primary colours. *)
Definition demo_colors : list (string * list Q) :=
  [("A", [1; 0; 0]); ("B", [0; 0; 1])]%Q.

(* ===================================================================== *)
(** ** The program                                                        *)
(* ===================================================================== *)

Section Program.
(** What the script takes from the interpreter, its libraries and the
    machine it runs on. *)
Variable num : Type.
(** [float(s)] on a string; [None] stands for its [ValueError]. *)
Variable float : string -> option num.
(** [a == b] on floats, and the text an f-string gives a float. *)
Variable float_eq : num -> num -> bool.
Variable float_str : num -> string.
(** [i/255.] *)
Variable div255 : Z -> num.
(** The order in which a [set] built from a list hands out its members. *)
Variable set_iter : list (value num) -> list (value num).
(** [list(csv.reader(open(filename), delimiter=","))]: rows of fields,
    or what [open] or the reader raise. *)
Variable open_csv : string -> result (list (list string)).
(** [xlrd.open_workbook(filename)]: the sheets, each a list of rows of
    cell values. *)
Variable xlrd_open_workbook : string -> result (list (list (row num))).
(** Whether a call into matplotlib raises, given the calls before it. *)
Variable backend : list (event num) -> event num -> option exn.
(** The registry the module-level name [code_colors] is bound to when the
    plotting functions run. *)
Variable code_colors : Colors num.

Local Abbreviation value := (value num).
Local Abbreviation row := (row num).
Local Abbreviation series := (series num).
Local Abbreviation event := (event num).
Local Abbreviation io := (io num).

(** [a == b] on values; a number never equals a string. *)
Definition py_eq (a b : value) : bool :=
  match a, b with
  | VNum x, VNum y => float_eq x y
  | VStr s, VStr t => String.eqb s t
  | _, _ => false
  end.

(** The text of a value inside an f-string. *)
Definition format_value (v : value) : string :=
  match v with
  | VNum x => float_str x
  | VStr s => s
  end.

(** A call into matplotlib: recorded, then it returns or raises. *)
Definition call (ev : event) : io unit :=
  fun tr =>
    match backend tr ev with
    | Some e => (Raise e, tr ++ [ev])
    | None => (Ok tt, tr ++ [ev])
    end.

(** [showerror] and [print]: recorded. *)
Definition emit (ev : event) : io unit := fun tr => (Ok tt, tr ++ [ev]).

(** *** Colors (lines 54-77) *)

(** Line 54. *)
Definition code_colors_scaled : list (string * list num) :=
  map (fun entry => (fst entry, map div255 (snd entry))) code_colors_table.

Definition Colors_init (colors : list (string * list num)) : Colors num :=
  let d := OrderedDict colors in
  mkColors d (map fst d).

(** [d[code]] on the ordered dictionary. *)
Fixpoint dict_getitem (d : list (string * list num)) (code : value)
  : result (list num) :=
  match d with
  | [] => Raise (KeyError (format_value code))
  | (k, v) :: d' => if py_eq (VStr k) code then Ok v else dict_getitem d' code
  end.

(** [t.index(code)] on the tuple of keys. *)
Fixpoint tuple_index (t : list string) (code : value) : result nat :=
  match t with
  | [] => Raise (ValueError "tuple.index(x): x not in tuple")
  | k :: t' =>
      if py_eq (VStr k) code then Ok O
      else (i <- tuple_index t' code ;; Ok (S i))%res
  end.

Definition Colors_error {A} (code : value) : result A :=
  Raise (PlottingError ("Could not find code: " ++ format_value code
                        ++ ", you may need to add it to 'code_colors'")).

Definition Colors_getitem (self : Colors num) (code : value)
  : result (list num) :=
  try_except (dict_getitem (_colors self) code)
             (fun _ => Colors_error code).

Definition Colors_index (self : Colors num) (code : value) : result nat :=
  try_except (tuple_index (_keys self) code)
             (fun _ => Colors_error code).

(** Line 77, for the table shipped with the script. *)
Definition code_colors_shipped : Colors num := Colors_init code_colors_scaled.

(** *** Data extraction (lines 93-139) *)

Definition py_float (s : string) : result num :=
  match float s with
  | Some x => Ok x
  | None => Raise (ValueError ("could not convert string to float: " ++ s))
  end.

(** [[float(x), float(y), code]] for one [(x, y, code)] of line 113. *)
Definition cast_row (fields : list string) : result row :=
  (' (x, y, code) <- unpack3 fields ;;
   x' <- py_float x ;;
   y' <- py_float y ;;
   Ok [VNum x'; VNum y'; VStr code])%res.

Definition read_file_csv (filename : string) : result (list row) :=
  try_except
    (data <- open_csv filename ;;
     let data := skipn 1 data in
     comprehension cast_row data)%res
    (fun _ => Raise (PlottingError ("Could not read file: " ++ filename))).

Definition sheet_by_index (workbook : list (list row)) (i : nat)
  : result (list row) :=
  match nth_error workbook i with
  | Some sheet => Ok sheet
  | None => Raise (IndexError "list index out of range")
  end.

Definition read_file_xls (filename : string) : result (list row) :=
  (workbook <- xlrd_open_workbook filename ;;
   sheet <- sheet_by_index workbook 0 ;;
   let nrows := List.length sheet in
   Ok (map (fun row_index => nth row_index sheet [])
           (seq 1 (nrows - 1))))%res.

Definition read_file (filename : string) : result (list row) :=
  let extension := snd (splitext filename) in
  try_except
    (if String.eqb extension ".csv" then read_file_csv filename
     else if String.eqb extension ".xls" then read_file_xls filename
     else Raise (PlottingError
                   ("Filetype: " ++ extension ++ " is not supported")))
    (fun _ => Raise (PlottingError ("Could not read file: " ++ filename))).

(** [point[2]] *)
Definition item2 (point : row) : result value :=
  match nth_error point 2 with
  | Some code => Ok code
  | None => Raise (IndexError "list index out of range")
  end.

Definition make_series (data : list row) : result (list series) :=
  (groups <- groupby item2 py_eq data ;;
   Ok (map (fun group => (fst group, map (firstn 2) (snd group))) groups))%res.

(** [a] comes before [b] in the order of the registry's keys. *)
Definition ranked_before (a b : value) : Prop :=
  exists i j,
    Colors_index code_colors a = Ok i /\
    Colors_index code_colors b = Ok j /\ i < j.


(** *** Plotting (lines 154-189) *)

Definition plot_series (s : series) : io unit :=
  let '(code, data) := s in
  (color <- lift (Colors_getitem code_colors code) ;;
   ' (x_data, y_data) <- lift (unpack2 (zip_star (VStr "") data)) ;;
   call (plt_plot x_data y_data color))%io.

Definition make_legend (data_series : list series) (location : string)
  : io unit :=
  let unique_codes := set_iter (map fst data_series) in
  (unique_codes <- lift (sorted unique_codes (Colors_index code_colors)) ;;
   custom_lines <- lift (comprehension (Colors_getitem code_colors)
                                       unique_codes) ;;
   call (ax_legend custom_lines unique_codes location))%io.

Definition plot_data (data_series : list series)
           (legend_position output : string) : io unit :=
  (call plt_subplots ;;;
   call (ax_set_xlim x_min x_max) ;;;
   call (ax_set_ylim y_min y_max) ;;;
   for_each data_series plot_series ;;;
   make_legend data_series legend_position ;;;
   call (plt_xlabel x_axis_label) ;;;
   call (plt_ylabel y_axis_label) ;;;
   if String.eqb output "" then io_ret tt else call (plt_savefig output))%io.

Definition do_plot (input legend_position output : string) : io unit :=
  (data <- lift (read_file input) ;;
   series <- lift (make_series data) ;;
   plot_data series legend_position output ;;;
   call plt_show)%io.

(** *** GUI (lines 201-258) *)

Definition View_init (cwd : string) : View :=
  {| selected_file := "";
     output_file := "";
     input_dialog := "You haven't selected an input file";
     output_dialog := "You haven't named an output file";
     working_dir := cwd;
     legend_position := "Best" |}.

Definition View_plot (self : View) : io unit :=
  io_try
    (let position := lower (legend_position self) in
     do_plot (selected_file self) position (output_file self))
    (fun err =>
       match err with
       | PlottingError message => emit (showerror message)
       | _ =>
           (emit (showerror
                    "Something unexpected went wrong, make sure your input file is formated correctly") ;;;
            emit (print err))%io
       end).

(** [path] is what the open dialog returned. *)
Definition View_select_input_file (self : View) (path : string) : View :=
  {| selected_file := path;
     output_file := output_file self;
     input_dialog :=
       if negb (String.eqb path "")
       then "You've selected: " ++ path
       else "You haven't selected an input file";
     output_dialog := output_dialog self;
     working_dir := dirname path;
     legend_position := legend_position self |}.

(** [path] is what the save dialog returned. *)
Definition View_select_output_file (self : View) (path : string) : View :=
  let working_dir' := dirname path in
  let path := fst (splitext path) in
  {| selected_file := selected_file self;
     output_file := path;
     input_dialog := input_dialog self;
     output_dialog :=
       if negb (String.eqb path "")
       then "Plot will be saved to: " ++ path ++ ".png"
       else "You haven't named an output file";
     working_dir := working_dir';
     legend_position := legend_position self |}.

(** *** Notions for the statements about traces *)

(** The colour the registry gives a code, when it gives one. *)
Definition color_of (code : value) : list num :=
  match Colors_getitem code_colors code with
  | Ok color => color
  | Raise _ => []
  end.

(** The call [plot_series] makes for a series of two-entry points. *)
Definition plot_call (s : series) : event :=
  plt_plot (map (fun point => nth 0 point (VStr "")) (snd s))
           (map (fun point => nth 1 point (VStr "")) (snd s))
           (color_of (fst s)).

(** The rows of a series with its code put back as their third entry. *)
Definition attach_code (s : series) : list row :=
  map (fun point => (point ++ [fst s])%list) (snd s).

(** The three calls every chart starts with. *)
Definition axes_setup : list event :=
  [plt_subplots; ax_set_xlim x_min x_max; ax_set_ylim y_min y_max].

(** The calls after the legend: axis labels, the optional save, the
    window. *)
Definition finishing_calls (output : string) : list event :=
  ([plt_xlabel x_axis_label; plt_ylabel y_axis_label] ++
   (if String.eqb output "" then [] else [plt_savefig output]))%list.

(** Calls into matplotlib, as opposed to the message box and [print]. *)
Definition is_matplotlib_call (ev : event) : bool :=
  match ev with
  | showerror _ | print _ => false
  | _ => true
  end.

(** [ev] is a call into matplotlib and, if it is [savefig], it is for the
    non-empty path [output]. *)
Definition draws_and_saves_only_to (output : string) (ev : event) : Prop :=
  is_matplotlib_call ev = true /\
  forall fname, ev = plt_savefig fname -> fname = output /\ output <> "".

(** Whatever it returns, [m] leaves the calls made before it in place and
    adds only events that satisfy [P]. *)
Definition appends_only {A} (P : event -> Prop) (m : io A) : Prop :=
  forall tr, exists evs, snd (m tr) = (tr ++ evs)%list /\ Forall P evs.

(* ===================================================================== *)
(** ** Properties                                                         *)
(* ===================================================================== *)

(** Goals made of equalities, memberships and disjunctions. *)
Ltac cases_or :=
  repeat match goal with
         | |- _ <-> _ => split
         | |- _ -> _ => intro
         | H : _ \/ _ |- _ => destruct H
         | H : False |- _ => destruct H
         end;
  subst; auto.

(** A call into matplotlib is recorded whether or not it raises. *)
Lemma snd_call (ev : event) (tr : list event) :
  snd (call ev tr) = (tr ++ [ev])%list.
Proof. unfold call. destruct (backend tr ev); reflexivity. Qed.

(** *** Series builder *)

Lemma item2_row_of (p : coded_point num) :
  item2 (row_of p) = Ok (VStr (code_of p)).
Proof. destruct p as [[distance elevation] code]. reflexivity. Qed.

Lemma firstn_row_of (p : coded_point num) :
  firstn 2 (row_of p) = point_of p.
Proof. destruct p as [[distance elevation] code]. reflexivity. Qed.

(** Every group [groupby] hands out has a first member: a group is opened
    by the value whose key differs from the running target key. *)
Lemma groupby_run_nonempty (keyfunc : row -> result value) tgtkey it members groups :
  groupby_run keyfunc py_eq tgtkey it = Ok (members, groups) ->
  Forall (fun g => snd g <> []) groups.
Proof.
  revert tgtkey members groups.
  induction it as [|v it IH]; intros tgtkey members groups Hrun; simpl in Hrun.
  - injection Hrun as <- <-. constructor.
  - destruct (keyfunc v) as [k|e]; simpl in Hrun; [|discriminate].
    destruct (py_eq k tgtkey).
    + destruct (groupby_run keyfunc py_eq tgtkey it) as [[m g]|e] eqn:Hrec;
        simpl in Hrun; [|discriminate].
      injection Hrun as <- <-. eapply IH; eassumption.
    + destruct (groupby_run keyfunc py_eq k it) as [[m g]|e] eqn:Hrec;
        simpl in Hrun; [|discriminate].
      injection Hrun as <- <-. constructor.
      * simpl. discriminate.
      * eapply IH; eassumption.
Qed.

(** On coded points the key never raises, so the pass over the iterator
    always completes; the members and groups it returns are the input cut
    at the places where the code changes. *)
Lemma groupby_run_coded (tgt : string) (pts : list (coded_point num)) :
  exists members groups,
    groupby_run item2 py_eq (VStr tgt) (map row_of pts) = Ok (members, groups) /\
    (members ++ List.concat (map snd groups))%list = map row_of pts /\
    List.length groups = maximal_runs_after (Some tgt) (map code_of pts) /\
    Forall (fun g => snd g <> []) groups.
Proof.
  revert tgt. induction pts as [|p pts IH]; intros tgt.
  - exists [], []. repeat split; constructor.
  - simpl. rewrite item2_row_of. simpl.
    destruct (String.eqb (code_of p) tgt) eqn:Hcode.
    + apply String.eqb_eq in Hcode. subst tgt.
      destruct (IH (code_of p)) as (m & g & Hrun & Hcat & Hlen & Hne).
      rewrite Hrun. simpl. exists (row_of p :: m), g.
      rewrite String.eqb_refl. simpl. rewrite Hcat. auto.
    + destruct (IH (code_of p)) as (m & g & Hrun & Hcat & Hlen & Hne).
      rewrite Hrun. simpl. exists [], ((VStr (code_of p), row_of p :: m) :: g).
      rewrite String.eqb_sym, Hcode. simpl. rewrite Hcat, Hlen.
      repeat split; auto. constructor; auto. simpl. discriminate.
Qed.

Lemma groupby_coded (pts : list (coded_point num)) :
  exists groups,
    groupby item2 py_eq (map row_of pts) = Ok groups /\
    List.concat (map snd groups) = map row_of pts /\
    List.length groups = maximal_runs (map code_of pts) /\
    Forall (fun g => snd g <> []) groups.
Proof.
  destruct pts as [|p pts].
  - exists []. repeat split; constructor.
  - simpl. rewrite item2_row_of. simpl.
    destruct (groupby_run_coded (code_of p) pts) as (m & g & Hrun & Hcat & Hlen & Hne).
    rewrite Hrun. simpl. exists ((VStr (code_of p), row_of p :: m) :: g).
    unfold maximal_runs. simpl. rewrite Hcat, Hlen.
    repeat split; auto. constructor; auto. simpl. discriminate.
Qed.

Lemma map_firstn_row_of (pts : list (coded_point num)) :
  map (firstn 2) (map row_of pts) = map point_of pts.
Proof.
  rewrite map_map. apply map_ext. intros p. apply firstn_row_of.
Qed.

Lemma concat_map_points (groups : list (value * list row)) :
  List.concat (map snd (map (fun group => (fst group, map (firstn 2) (snd group))) groups))
  = map (firstn 2) (List.concat (map snd groups)).
Proof.
  induction groups as [|g groups IH]; simpl.
  - reflexivity.
  - rewrite map_app. f_equal. exact IH.
Qed.

(** C3: for every sequence of coded points, [make_series] returns, the
    point lists of its series concatenated in output order are the input's
    (distance, elevation) pairs in their original order, and there are as
    many series as maximal runs of adjacent equal codes. *)
Theorem make_series_partitions_input (pts : list (coded_point num)) :
  exists data_series,
    make_series (map row_of pts) = Ok data_series /\
    List.concat (map snd data_series) = map point_of pts /\
    List.length data_series = maximal_runs (map code_of pts).
Proof.
  destruct (groupby_coded pts) as (groups & Hg & Hcat & Hlen & _).
  unfold make_series. rewrite Hg. simpl.
  eexists. split; [reflexivity|]. split.
  - rewrite concat_map_points, Hcat. apply map_firstn_row_of.
  - rewrite length_map. exact Hlen.
Qed.

Lemma fold_min_pairs (lens : list nat) :
  Forall (fun n => n = 2) lens -> fold_left Nat.min lens 2 = 2.
Proof.
  induction 1 as [|n lens Hn _ IH]; simpl.
  - reflexivity.
  - subst n. exact IH.
Qed.

(** Transposing a non-empty list of two-element points gives exactly the
    two coordinate lists. *)
Lemma zip_star_pairs (dflt : value) (data : list row) :
  data <> [] ->
  Forall (fun point => List.length point = 2) data ->
  zip_star dflt data =
  [map (fun point => nth 0 point dflt) data;
   map (fun point => nth 1 point dflt) data].
Proof.
  intros Hne Hall. destruct data as [|point data]; [congruence|].
  inversion Hall as [|? ? Hpoint Hrest]; subst.
  unfold zip_star. rewrite Hpoint, fold_min_pairs; [reflexivity|].
  apply Forall_map. exact Hrest.
Qed.

Lemma in_group_in_concat (groups : list (value * list row)) g r :
  In g groups -> In r (snd g) -> In r (List.concat (map snd groups)).
Proof.
  intros Hg Hr. apply in_concat. exists (snd g). split; [|exact Hr].
  apply in_map. exact Hg.
Qed.

(** For rows of any shape: when [make_series] returns, no series is
    empty. *)
Lemma make_series_nonempty_on_any_rows (data : list row) data_series :
  make_series data = Ok data_series ->
  Forall (fun s => snd s <> []) data_series.
Proof.
  unfold make_series. destruct data as [|v it]; simpl.
  - intros [= <-]. constructor.
  - destruct (item2 v) as [k|e]; simpl; [|discriminate].
    destruct (groupby_run item2 py_eq k it) as [[members groups]|e] eqn:Hrun;
      simpl; [|discriminate].
    intros [= <-]. simpl. constructor; [simpl; discriminate|].
    apply Forall_map. apply groupby_run_nonempty in Hrun.
    eapply Forall_impl; [|exact Hrun].
    intros [code [|point points]]; simpl; [congruence|discriminate].
Qed.


(** With its colour found and its points unpacked, [plot_series] gets to
    the call of [plt.plot]. *)
Lemma plot_series_reaches_plot (s : series) x_data y_data color tr :
  unpack2 (zip_star (VStr "") (snd s)) = Ok (x_data, y_data) ->
  Colors_getitem code_colors (fst s) = Ok color ->
  snd (plot_series s tr) = (tr ++ [plt_plot x_data y_data color])%list.
Proof.
  destruct s as [code data]. simpl. intros Hunpack Hcolor.
  unfold plot_series, io_bind, lift. rewrite Hcolor, Hunpack.
  apply snd_call.
Qed.

(** C10: for every sequence of coded points, every series [make_series]
    returns holds at least one point, so the unpacking of a series' points
    into an x list and a y list in [plot_series] gets its two lists, and a
    series whose colour is found reaches the call of [plt.plot]. *)
Theorem make_series_never_yields_an_empty_series (pts : list (coded_point num)) :
  exists data_series,
    make_series (map row_of pts) = Ok data_series /\
    Forall (fun s =>
              snd s <> [] /\
              exists x_data y_data,
                unpack2 (zip_star (VStr "") (snd s)) = Ok (x_data, y_data) /\
                List.length x_data = List.length (snd s) /\
                List.length y_data = List.length (snd s) /\
                forall color tr,
                  Colors_getitem code_colors (fst s) = Ok color ->
                  snd (plot_series s tr) =
                  (tr ++ [plt_plot x_data y_data color])%list)
           data_series.
Proof.
  destruct (groupby_coded pts) as (groups & Hg & Hcat & _ & Hne).
  unfold make_series. rewrite Hg. simpl.
  eexists. split; [reflexivity|].
  apply Forall_map. rewrite Forall_forall in Hne |- *.
  intros g Hin.
  assert (Hdata : map (firstn 2) (snd g) <> []).
  { pose proof (Hne g Hin) as Hsome. destruct g as [code [|point data]].
    - contradiction Hsome. reflexivity.
    - discriminate. }
  assert (Hunpack :
            unpack2 (zip_star (VStr "") (map (firstn 2) (snd g))) =
            Ok (map (fun point => nth 0 point (VStr "")) (map (firstn 2) (snd g)),
                map (fun point => nth 1 point (VStr "")) (map (firstn 2) (snd g)))).
  { rewrite zip_star_pairs; [reflexivity | exact Hdata |].
    apply Forall_map. apply Forall_forall. intros r Hr.
    pose proof (in_group_in_concat groups g r Hin Hr) as Hrow.
    rewrite Hcat in Hrow. apply in_map_iff in Hrow.
    destruct Hrow as (p & <- & _).
    destruct p as [[distance elevation] code]. reflexivity. }
  simpl. split; [exact Hdata|].
  do 2 eexists. split; [exact Hunpack|].
  split; [rewrite !length_map; reflexivity|].
  split; [rewrite !length_map; reflexivity|].
  intros color tr Hcolor.
  apply (plot_series_reaches_plot
           (fst g, map (firstn 2) (snd g)) _ _ color tr Hunpack Hcolor).
Qed.

(** *** File reader *)

Lemma cast_row_well_formed (fields : list string) :
  well_formed_row float fields = true ->
  exists point, cast_row fields = Ok point /\ parsed_row float fields point.
Proof.
  destruct fields as [|x [|y [|code [|extra fields]]]]; simpl; try discriminate.
  unfold cast_row, py_float. simpl.
  destruct (float x) as [x'|] eqn:Hx; [|discriminate].
  destruct (float y) as [y'|] eqn:Hy; [|discriminate].
  intros _. simpl. eexists. split; [reflexivity|].
  exists x, y, code, x', y'. auto.
Qed.

Lemma cast_row_malformed (fields : list string) :
  malformed_row float fields -> exists e, cast_row fields = Raise e.
Proof.
  intros [Hlen | (x & y & code & -> & Hfloat)].
  - destruct fields as [|x [|y [|code [|extra fields]]]];
      try (eexists; reflexivity).
    contradiction Hlen. reflexivity.
  - unfold cast_row, py_float. simpl.
    destruct Hfloat as [Hx | Hy].
    + rewrite Hx. eexists. reflexivity.
    + rewrite Hy. destruct (float x); eexists; reflexivity.
Qed.

(** A row is malformed exactly when it is not well formed. *)
Lemma malformed_iff_not_well_formed (fields : list string) :
  malformed_row float fields <-> well_formed_row float fields = false.
Proof.
  split.
  - intros [Hlen | (x & y & code & -> & Hfloat)].
    + destruct fields as [|x [|y [|code [|extra fields]]]]; try reflexivity.
      contradiction Hlen. reflexivity.
    + simpl. destruct Hfloat as [-> | ->]; [reflexivity|].
      destruct (float x); reflexivity.
  - destruct fields as [|x [|y [|code [|extra fields]]]]; simpl;
      try (intros _; left; simpl; discriminate).
    intros Hbad. right. exists x, y, code. split; [reflexivity|].
    destruct (float x); [|left; reflexivity].
    destruct (float y); [discriminate|right; reflexivity].
Qed.


Lemma comprehension_well_formed (rows : list (list string)) :
  forallb (well_formed_row float) rows = true ->
  exists data,
    comprehension cast_row rows = Ok data /\
    Forall2 (parsed_row float) rows data.
Proof.
  induction rows as [|fields rows IH]; simpl; intros Hall.
  - exists []. split; [reflexivity|constructor].
  - apply andb_prop in Hall. destruct Hall as [Hrow Hrows].
    destruct (cast_row_well_formed fields Hrow) as (point & Hcast & Hpoint).
    destruct (IH Hrows) as (data & Hdata & Hforall).
    rewrite Hcast, Hdata. simpl. exists (point :: data).
    split; [reflexivity|]. constructor; assumption.
Qed.

Lemma comprehension_malformed (rows : list (list string)) :
  Exists (malformed_row float) rows ->
  exists e, comprehension cast_row rows = Raise e.
Proof.
  induction 1 as [fields rows Hbad | fields rows _ IH]; simpl.
  - destruct (cast_row_malformed fields Hbad) as (e & ->).
    exists e. reflexivity.
  - destruct IH as (e & ->).
    destruct (cast_row fields); simpl; eexists; reflexivity.
Qed.

Lemma read_file_csv_unfold (filename : string) :
  read_file_csv filename =
  try_except
    (data <- open_csv filename ;; comprehension cast_row (skipn 1 data))%res
    (fun _ => Raise (PlottingError ("Could not read file: " ++ filename))).
Proof. reflexivity. Qed.

(** Whatever goes wrong inside [read_file], the bare [except] on line 102
    replaces it by the generic error. *)
Lemma read_file_only_generic_error (filename : string) :
  (exists data, read_file filename = Ok data) \/
  read_file filename =
  Raise (PlottingError ("Could not read file: " ++ filename)).
Proof.
  unfold read_file.
  destruct (String.eqb (snd (splitext filename)) ".csv").
  - destruct (read_file_csv filename); simpl; eauto.
  - destruct (String.eqb (snd (splitext filename)) ".xls").
    + destruct (read_file_xls filename); simpl; eauto.
    + right. reflexivity.
Qed.

Lemma read_file_unsupported (filename : string) :
  snd (splitext filename) <> ".csv" ->
  snd (splitext filename) <> ".xls" ->
  read_file filename =
  Raise (PlottingError ("Could not read file: " ++ filename)).
Proof.
  intros Hcsv Hxls. unfold read_file.
  apply String.eqb_neq in Hcsv, Hxls. rewrite Hcsv, Hxls. reflexivity.
Qed.

Lemma read_file_csv_extension (filename : string) :
  snd (splitext filename) = ".csv" ->
  read_file filename =
  try_except (read_file_csv filename)
    (fun _ => Raise (PlottingError ("Could not read file: " ++ filename))).
Proof.
  intros Hext. unfold read_file. rewrite Hext. reflexivity.
Qed.

(** C1: on [survey.txt], whose extension is neither of the two supported
    ones, [read_file] raises the generic "Could not read file" error; the
    "Filetype: .txt is not supported" error raised on line 101 is caught
    by the bare [except] of line 102 and never leaves the function. *)
Theorem read_file_txt_reports_generic_error :
  read_file "survey.txt" =
  Raise (PlottingError "Could not read file: survey.txt") /\
  read_file "survey.txt" <>
  Raise (PlottingError "Filetype: .txt is not supported").
Proof.
  split.
  - reflexivity.
  - discriminate.
Qed.

(** C5: a delimited-text file with a header row and N data rows, each of
    three fields whose first two are accepted by [float], is read into
    exactly N coded points in file order: the first two fields cast to
    numbers, the third kept as it is. *)
Theorem read_file_csv_reads_every_row
        (filename : string) (header : list string)
        (rows : list (list string)) :
  open_csv filename = Ok (header :: rows) ->
  forallb (well_formed_row float) rows = true ->
  exists data,
    read_file_csv filename = Ok data /\
    List.length data = List.length rows /\
    Forall2 (parsed_row float) rows data /\
    (snd (splitext filename) = ".csv" -> read_file filename = Ok data).
Proof.
  intros Hopen Hrows.
  destruct (comprehension_well_formed rows Hrows) as (data & Hdata & Hall).
  assert (Hcsv : read_file_csv filename = Ok data).
  { rewrite read_file_csv_unfold, Hopen. simpl. rewrite Hdata. reflexivity. }
  exists data. split; [exact Hcsv|]. split.
  - symmetry. eapply Forall2_length. exact Hall.
  - split; [exact Hall|].
    intros Hext. rewrite (read_file_csv_extension filename Hext), Hcsv.
    reflexivity.
Qed.

(** C6: a delimited-text file with at least one malformed data row makes
    the reader raise the generic "Could not read file" error for the whole
    file; no rows are returned. *)
Theorem read_file_csv_malformed_row_fails_whole_file
        (filename : string) (header : list string)
        (rows : list (list string)) :
  open_csv filename = Ok (header :: rows) ->
  Exists (malformed_row float) rows ->
  read_file_csv filename =
  Raise (PlottingError ("Could not read file: " ++ filename)) /\
  (snd (splitext filename) = ".csv" ->
   read_file filename =
   Raise (PlottingError ("Could not read file: " ++ filename))).
Proof.
  intros Hopen Hbad.
  destruct (comprehension_malformed rows Hbad) as (e & Hraise).
  assert (Hcsv : read_file_csv filename =
                 Raise (PlottingError ("Could not read file: " ++ filename))).
  { rewrite read_file_csv_unfold, Hopen. simpl. rewrite Hraise. reflexivity. }
  split; [exact Hcsv|].
  intros Hext. rewrite (read_file_csv_extension filename Hext), Hcsv.
  reflexivity.
Qed.

(** *** Color registry *)

Lemma od_setitem_keys (d : list (string * list num)) k v k' :
  In k' (map fst (od_setitem d k v)) <-> k' = k \/ In k' (map fst d).
Proof.
  induction d as [|[k0 v0] d IH]; simpl.
  - cases_or.
  - destruct (String.eqb k0 k) eqn:Hk; simpl.
    + apply String.eqb_eq in Hk. subst k0. cases_or.
    + rewrite IH. cases_or.
Qed.

Lemma fold_od_setitem_keys (pairs d : list (string * list num)) k :
  In k (map fst (fold_left (fun d kv => od_setitem d (fst kv) (snd kv)) pairs d))
  <-> In k (map fst d) \/ In k (map fst pairs).
Proof.
  revert d. induction pairs as [|[k0 v0] pairs IH]; intros d; simpl.
  - cases_or.
  - rewrite IH, od_setitem_keys. cases_or.
Qed.

(** The keys of the registry are the codes of the configuration. *)
Lemma Colors_init_keys (colors : list (string * list num)) k :
  In k (_keys (Colors_init colors)) <-> In k (map fst colors).
Proof.
  unfold Colors_init, OrderedDict. simpl.
  rewrite fold_od_setitem_keys. simpl. cases_or.
Qed.

Lemma Colors_init_colors_keys (colors : list (string * list num)) :
  map fst (_colors (Colors_init colors)) = _keys (Colors_init colors).
Proof. reflexivity. Qed.

Lemma dict_getitem_known (d : list (string * list num)) (s : string) :
  In s (map fst d) -> exists color, dict_getitem d (VStr s) = Ok color.
Proof.
  induction d as [|[k v] d IH]; simpl; [contradiction|].
  intros Hin. destruct (String.eqb k s) eqn:Hk.
  - eexists. reflexivity.
  - apply String.eqb_neq in Hk. destruct Hin as [Heq|Hin]; [congruence|].
    apply IH. exact Hin.
Qed.

Lemma dict_getitem_unknown (d : list (string * list num)) (code : value) :
  ~ In code (map VStr (map fst d)) ->
  dict_getitem d code = Raise (KeyError (format_value code)).
Proof.
  induction d as [|[k v] d IH]; simpl; [reflexivity|].
  intros Hnot.
  assert (Hk : py_eq (VStr k) code = false).
  { destruct code as [x|s]; simpl; [reflexivity|].
    apply String.eqb_neq. intros ->. apply Hnot. left. reflexivity. }
  fold (py_eq (VStr k) code). rewrite Hk.
  apply IH. intros Hin. apply Hnot. right. exact Hin.
Qed.

Lemma tuple_index_known (t : list string) (s : string) :
  In s t -> exists rank, tuple_index t (VStr s) = Ok rank.
Proof.
  induction t as [|k t IH]; simpl; [contradiction|].
  intros Hin. destruct (String.eqb k s) eqn:Hk.
  - eexists. reflexivity.
  - apply String.eqb_neq in Hk. destruct Hin as [Heq|Hin]; [congruence|].
    destruct (IH Hin) as (rank & ->). eexists. reflexivity.
Qed.

Lemma tuple_index_unknown (t : list string) (code : value) :
  ~ In code (map VStr t) -> exists e, tuple_index t code = Raise e.
Proof.
  induction t as [|k t IH]; simpl.
  - intros _. eexists. reflexivity.
  - intros Hnot.
    assert (Hk : py_eq (VStr k) code = false).
    { destruct code as [x|s]; simpl; [reflexivity|].
      apply String.eqb_neq. intros ->. apply Hnot. left. reflexivity. }
    fold (py_eq (VStr k) code). rewrite Hk.
    destruct IH as (e & ->).
    + intros Hin. apply Hnot. right. exact Hin.
    + eexists. reflexivity.
Qed.

(** A rank returned by [tuple_index] is the position of the code. *)
Lemma tuple_index_position (t : list string) (code : value) (rank : nat) :
  tuple_index t code = Ok rank ->
  exists s, code = VStr s /\ nth_error t rank = Some s.
Proof.
  revert rank.
  induction t as [|k t IH]; intros rank; cbn [tuple_index]; [discriminate|].
  destruct (py_eq (VStr k) code) eqn:Hk.
  - intros [= <-]. destruct code as [x|s]; simpl in Hk; [discriminate|].
    apply String.eqb_eq in Hk. subst s. exists k. auto.
  - destruct (tuple_index t code) as [i|e]; simpl; [|discriminate].
    intros [= <-]. destruct (IH i eq_refl) as (s & Hs & Hnth).
    exists s. auto.
Qed.

Lemma in_map_VStr_keys (colors : list (string * list num)) (code : value) :
  In code (map VStr (_keys (Colors_init colors))) <->
  In code (map (@VStr num) (map fst colors)).
Proof.
  rewrite !in_map_iff. split; intros (s & Hs & Hin); exists s; split; auto;
    apply Colors_init_keys; exact Hin.
Qed.

(** C7: for a code that is not in the colour configuration, the colour
    lookup and the rank lookup of the registry both raise the domain error
    whose message names the code and says to add it to 'code_colors'; for
    a configured code both lookups return. *)
Theorem Colors_lookups_fail_exactly_on_unknown_codes
        (colors : list (string * list num)) (code : value) :
  (~ In code (map VStr (map fst colors)) ->
   Colors_getitem (Colors_init colors) code =
   Raise (PlottingError ("Could not find code: " ++ format_value code
                         ++ ", you may need to add it to 'code_colors'")) /\
   Colors_index (Colors_init colors) code =
   Raise (PlottingError ("Could not find code: " ++ format_value code
                         ++ ", you may need to add it to 'code_colors'")))
  /\
  (In code (map VStr (map fst colors)) ->
   exists color rank,
     Colors_getitem (Colors_init colors) code = Ok color /\
     Colors_index (Colors_init colors) code = Ok rank).
Proof.
  split.
  - intros Hnot. rewrite <- in_map_VStr_keys in Hnot.
    unfold Colors_getitem, Colors_index. split.
    + rewrite dict_getitem_unknown; [reflexivity|].
      rewrite Colors_init_colors_keys. exact Hnot.
    + destruct (tuple_index_unknown _ code Hnot) as (e & ->). reflexivity.
  - intros Hin. apply in_map_iff in Hin. destruct Hin as (s & <- & Hin).
    apply Colors_init_keys in Hin.
    unfold Colors_getitem, Colors_index.
    destruct (dict_getitem_known (_colors (Colors_init colors)) s) as (color & ->).
    { rewrite Colors_init_colors_keys. exact Hin. }
    destruct (tuple_index_known _ s Hin) as (rank & ->).
    exists color, rank. split; reflexivity.
Qed.

(** *** Sorting *)

Lemma insert_keyed_perm (k : nat) (a : value) (l : list (nat * value)) :
  Permutation (insert_keyed k a l) ((k, a) :: l).
Proof.
  induction l as [|[k' a'] l IH]; simpl.
  - apply Permutation_refl.
  - destruct (Nat.leb k k').
    + apply Permutation_refl.
    + eapply perm_trans; [apply perm_skip, IH | apply perm_swap].
Qed.

Lemma sort_keyed_perm (l : list (nat * value)) :
  Permutation (sort_keyed l) l.
Proof.
  induction l as [|[k a] l IH]; simpl.
  - constructor.
  - eapply perm_trans; [apply insert_keyed_perm | apply perm_skip, IH].
Qed.

Lemma insert_keyed_sorted (k : nat) (a : value) (l : list (nat * value)) :
  StronglySorted key_le l -> StronglySorted key_le (insert_keyed k a l).
Proof.
  induction 1 as [|[k' a'] l Hsorted IH Hall]; simpl.
  - repeat constructor.
  - destruct (Nat.leb k k') eqn:Hk.
    + apply Nat.leb_le in Hk. constructor.
      * constructor; assumption.
      * constructor; [exact Hk|].
        eapply Forall_impl; [|exact Hall].
        intros [k'' a'']. unfold key_le. simpl. lia.
    + apply Nat.leb_gt in Hk. constructor; [exact IH|].
      eapply Permutation_Forall.
      * apply Permutation_sym, insert_keyed_perm.
      * constructor; [unfold key_le; simpl; lia | exact Hall].
Qed.

Lemma sort_keyed_sorted (l : list (nat * value)) :
  StronglySorted key_le (sort_keyed l).
Proof.
  induction l as [|[k a] l IH]; simpl.
  - constructor.
  - apply insert_keyed_sorted. exact IH.
Qed.

(** A comprehension whose element expression returns on every element
    returns, element by element. *)
Lemma comprehension_returns {A B} (f : A -> result B) (l : list A) :
  (forall a, In a l -> exists b, f a = Ok b) ->
  exists bs, comprehension f l = Ok bs /\ Forall2 (fun a b => f a = Ok b) l bs.
Proof.
  induction l as [|a l IH]; simpl; intros Hall.
  - exists []. split; [reflexivity|constructor].
  - destruct (Hall a (or_introl eq_refl)) as (b & Hb).
    destruct IH as (bs & Hbs & Hforall); [intros; apply Hall; auto|].
    rewrite Hb, Hbs. simpl. exists (b :: bs).
    split; [reflexivity|]. constructor; assumption.
Qed.

Lemma strongly_sorted_map_snd (R : value -> value -> Prop)
      (l : list (nat * value)) :
  StronglySorted (fun x y => R (snd x) (snd y)) l ->
  StronglySorted R (map snd l).
Proof.
  induction 1 as [|x l _ IH Hall]; simpl; constructor.
  - exact IH.
  - apply Forall_map. exact Hall.
Qed.

Lemma strongly_sorted_strengthen {A} (R R' : A -> A -> Prop) (l : list A) :
  (forall a b, In a l -> In b l -> R a b -> a <> b -> R' a b) ->
  NoDup l -> StronglySorted R l -> StronglySorted R' l.
Proof.
  intros Himpl Hnodup Hsorted. revert Himpl Hnodup.
  induction Hsorted as [|a l _ IH Hall]; intros Himpl Hnodup.
  - constructor.
  - inversion Hnodup as [|? ? Hnotin Hnodup']; subst. constructor.
    + apply IH; [|exact Hnodup'].
      intros x y Hx Hy. apply Himpl; right; assumption.
    + rewrite Forall_forall in Hall |- *. intros b Hb.
      apply Himpl; [left; reflexivity | right; exact Hb | apply Hall; exact Hb |].
      intros ->. contradiction.
Qed.

(** Two lists sorted by a strict order that hold the same elements are the
    same list. *)
Lemma strongly_sorted_unique {A} (R : A -> A -> Prop) :
  (forall a b, R a b -> R b a -> False) ->
  forall l1 l2,
    StronglySorted R l1 -> StronglySorted R l2 ->
    (forall x, In x l1 <-> In x l2) -> l1 = l2.
Proof.
  intros Hasym l1. induction l1 as [|a l1 IH]; intros [|b l2] H1 H2 Hsame.
  - reflexivity.
  - destruct (proj2 (Hsame b) (or_introl eq_refl)).
  - destruct (proj1 (Hsame a) (or_introl eq_refl)).
  - apply StronglySorted_inv in H1, H2.
    destruct H1 as [H1 Ha], H2 as [H2 Hb].
    rewrite Forall_forall in Ha, Hb.
    assert (Hab : a = b).
    { destruct (proj1 (Hsame a) (or_introl eq_refl)) as [Heq|Hin]; [auto|].
      destruct (proj2 (Hsame b) (or_introl eq_refl)) as [Heq|Hin']; [auto|].
      exfalso. eapply Hasym; [apply Ha, Hin' | apply Hb, Hin]. }
    subst b. f_equal. apply IH; [exact H1 | exact H2 |].
    intros x. split; intros Hx.
    + destruct (proj1 (Hsame x) (or_intror Hx)) as [Heq|Hin]; [|exact Hin].
      subst x. exfalso. eapply Hasym; apply Ha, Hx.
    + destruct (proj2 (Hsame x) (or_intror Hx)) as [Heq|Hin]; [|exact Hin].
      subst x. exfalso. eapply Hasym; apply Hb, Hx.
Qed.

Lemma strongly_sorted_impl_in {A} (R R' : A -> A -> Prop) (l : list A) :
  (forall a b, In a l -> In b l -> R a b -> R' a b) ->
  StronglySorted R l -> StronglySorted R' l.
Proof.
  intros Himpl Hsorted. revert Himpl.
  induction Hsorted as [|a l _ IH Hall]; intros Himpl; constructor.
  - apply IH. intros x y Hx Hy. apply Himpl; right; assumption.
  - rewrite Forall_forall in Hall |- *. intros b Hb.
    apply Himpl; [left; reflexivity | right; exact Hb | apply Hall; exact Hb].
Qed.

(** *** Legend *)

Lemma Colors_index_position (code : value) (rank : nat) :
  Colors_index code_colors code = Ok rank ->
  exists s, code = VStr s /\ nth_error (_keys code_colors) rank = Some s.
Proof.
  unfold Colors_index. intros Hrank. apply tuple_index_position.
  destruct (tuple_index (_keys code_colors) code); [exact Hrank|discriminate].
Qed.

Lemma Colors_index_injective (a b : value) (rank : nat) :
  Colors_index code_colors a = Ok rank ->
  Colors_index code_colors b = Ok rank -> a = b.
Proof.
  intros Ha Hb.
  destruct (Colors_index_position a rank Ha) as (s & -> & Hs).
  destruct (Colors_index_position b rank Hb) as (t & -> & Ht).
  congruence.
Qed.

Lemma ranked_before_asym (a b : value) :
  ranked_before a b -> ranked_before b a -> False.
Proof.
  intros (i & j & Hi & Hj & Hlt) (j' & i' & Hj' & Hi' & Hlt').
  rewrite Hi in Hi'. rewrite Hj in Hj'.
  injection Hi' as <-. injection Hj' as <-. lia.
Qed.

(** The decorated list [sorted] works on pairs every element with its
    key. *)
Lemma decorate_returns (l : list value) :
  (forall c, In c l -> exists rank, Colors_index code_colors c = Ok rank) ->
  exists decorated,
    comprehension (fun a => k <- Colors_index code_colors a ;; Ok (k, a))%res l
    = Ok decorated /\
    map snd decorated = l /\
    Forall (fun ka => Colors_index code_colors (snd ka) = Ok (fst ka)) decorated.
Proof.
  induction l as [|c l IH]; simpl; intros Hall.
  - exists []. repeat split; constructor.
  - destruct (Hall c (or_introl eq_refl)) as (rank & Hrank).
    destruct IH as (decorated & Hdec & Hsnd & Hkeys); [intros; apply Hall; auto|].
    rewrite Hrank. simpl. rewrite Hdec. simpl.
    exists ((rank, c) :: decorated). split; [reflexivity|]. split.
    + simpl. rewrite Hsnd. reflexivity.
    + constructor; assumption.
Qed.

(** With every key defined, [sorted] returns a rearrangement of its
    argument in which the ranks never decrease; without repeated elements
    they increase. *)
Lemma sorted_by_rank (l : list value) :
  NoDup l ->
  (forall c, In c l -> exists rank, Colors_index code_colors c = Ok rank) ->
  exists labels,
    sorted l (Colors_index code_colors) = Ok labels /\
    Permutation labels l /\
    StronglySorted ranked_before labels.
Proof.
  intros Hnodup Hall.
  destruct (decorate_returns l Hall) as (decorated & Hdec & Hsnd & Hkeys).
  exists (map snd (sort_keyed decorated)).
  assert (Hperm : Permutation (map snd (sort_keyed decorated)) l).
  { rewrite <- Hsnd. apply Permutation_map, sort_keyed_perm. }
  split; [unfold sorted; rewrite Hdec; reflexivity|].
  split; [exact Hperm|].
  apply strongly_sorted_strengthen
    with (R := fun a b => exists i j,
                   Colors_index code_colors a = Ok i /\
                   Colors_index code_colors b = Ok j /\ i <= j).
  - intros a b _ _ (i & j & Hi & Hj & Hle) Hneq.
    exists i, j. repeat split; try assumption.
    destruct (Nat.eq_dec i j) as [->|Hij]; [|lia].
    contradiction Hneq. eapply Colors_index_injective; eassumption.
  - eapply Permutation_NoDup; [apply Permutation_sym, Hperm | exact Hnodup].
  - apply strongly_sorted_map_snd.
    apply strongly_sorted_impl_in with (R := key_le);
      [|apply sort_keyed_sorted].
    assert (Hkeys' : Forall (fun ka => Colors_index code_colors (snd ka)
                                       = Ok (fst ka))
                            (sort_keyed decorated)).
    { eapply Permutation_Forall;
        [apply Permutation_sym, sort_keyed_perm | exact Hkeys]. }
    rewrite Forall_forall in Hkeys'.
    intros x y Hx Hy Hle. exists (fst x), (fst y).
    repeat split; [apply Hkeys', Hx | apply Hkeys', Hy | exact Hle].
Qed.

Lemma configured_code_has_rank_and_color
      (colors : list (string * list num)) (c : value) :
  code_colors = Colors_init colors ->
  In c (map VStr (map fst colors)) ->
  (exists rank, Colors_index code_colors c = Ok rank) /\
  (exists color, Colors_getitem code_colors c = Ok color).
Proof.
  intros -> Hin. apply in_map_iff in Hin. destruct Hin as (s & <- & Hin).
  apply Colors_init_keys in Hin. unfold Colors_index, Colors_getitem. split.
  - destruct (tuple_index_known _ s Hin) as (rank & ->). eexists. reflexivity.
  - destruct (dict_getitem_known (_colors (Colors_init colors)) s) as (color & ->).
    + rewrite Colors_init_colors_keys. exact Hin.
    + eexists. reflexivity.
Qed.

(** C8: when all series codes are configured, the legend handed to the
    axes has exactly one entry per distinct code of the series, whatever
    order the set of codes is iterated in, and the entries are in the order
    of the registry's keys; for series codes B, A, B under the configuration
    order A, B the entries are A then B. *)
Theorem make_legend_lists_each_code_once_in_registry_order
        (colors : list (string * list num)) (data_series : list series)
        (location : string) (tr : list event) :
  code_colors = Colors_init colors ->
  NoDup (set_iter (map fst data_series)) ->
  (forall c, In c (set_iter (map fst data_series)) <->
             In c (map fst data_series)) ->
  (forall c, In c (map fst data_series) -> In c (map VStr (map fst colors))) ->
  exists labels custom_lines,
    snd (make_legend data_series location tr) =
    (tr ++ [ax_legend custom_lines labels location])%list /\
    NoDup labels /\
    (forall c, In c labels <-> In c (map fst data_series)) /\
    StronglySorted ranked_before labels /\
    Forall2 (fun c line => Colors_getitem code_colors c = Ok line)
            labels custom_lines /\
    (map fst colors = ["A"; "B"] ->
     map fst data_series = [VStr "B"; VStr "A"; VStr "B"] ->
     labels = [VStr "A"; VStr "B"]).
Proof.
  intros Hinit Hnodup Hset Hconf.
  destruct (sorted_by_rank (set_iter (map fst data_series)) Hnodup)
    as (labels & Hsorted & Hperm & Hranked).
  { intros c Hc. apply Hset, Hconf in Hc.
    apply (configured_code_has_rank_and_color colors c Hinit Hc). }
  assert (Hsame : forall c, In c labels <-> In c (map fst data_series)).
  { intros c. rewrite <- Hset. split; apply Permutation_in;
      [exact Hperm | apply Permutation_sym, Hperm]. }
  destruct (comprehension_returns (Colors_getitem code_colors) labels)
    as (custom_lines & Hlines & Hcolors).
  { intros c Hc. apply Hsame, Hconf in Hc.
    apply (configured_code_has_rank_and_color colors c Hinit Hc). }
  exists labels, custom_lines. split; [|split; [|split; [|split; [|split]]]].
  - unfold make_legend, io_bind, lift. rewrite Hsorted, Hlines.
    apply snd_call.
  - eapply Permutation_NoDup; [apply Permutation_sym, Hperm | exact Hnodup].
  - exact Hsame.
  - exact Hranked.
  - exact Hcolors.
  - intros Horder Hcodes.
    apply strongly_sorted_unique with (R := ranked_before).
    + apply ranked_before_asym.
    + exact Hranked.
    + destruct colors as [|[a color_a] [|[b color_b] [|extra colors]]];
        try discriminate.
      simpl in Horder. injection Horder as -> ->.
      repeat constructor. unfold ranked_before. rewrite Hinit.
      exists 0, 1. repeat split; auto.
    + intros c. rewrite Hsame, Hcodes. simpl. cases_or.
Qed.

(** *** Interactive shell *)

(** C9: whatever the pipeline does when the plot action runs, [View.plot]
    returns normally: after a [PlottingError] its message has been shown,
    after any other exception the generic message has been shown and the
    exception printed, and after a clean run nothing is added. *)
Theorem View_plot_catches_every_pipeline_failure
        (self : View) (tr : list event) :
  exists tr',
    View_plot self tr = (Ok tt, tr') /\
    match do_plot (selected_file self) (lower (legend_position self))
                  (output_file self) tr with
    | (Ok _, after) => tr' = after
    | (Raise (PlottingError message), after) =>
        tr' = (after ++ [showerror message])%list
    | (Raise err, after) =>
        tr' = (after ++
               [showerror
                  "Something unexpected went wrong, make sure your input file is formated correctly";
                print err])%list
    end.
Proof.
  unfold View_plot, io_try.
  destruct (do_plot (selected_file self) (lower (legend_position self))
                    (output_file self) tr) as [[[]|err] after].
  - exists after. split; reflexivity.
  - destruct err; eexists; (split; [reflexivity|]);
      try reflexivity; rewrite <- app_assoc; reflexivity.
Qed.

(* ===================================================================== *)
(** ** Further properties of the reader                                   *)
(* ===================================================================== *)

(** X1: whatever makes [read_file] fail (an unsupported extension, a file
    that cannot be opened, a malformed row, a broken workbook), the only
    exception that leaves it is the [PlottingError] "Could not read file"
    naming the path. *)
Theorem read_file_raises_only_could_not_read (filename : string) (e : exn) :
  read_file filename = Raise e ->
  e = PlottingError ("Could not read file: " ++ filename).
Proof.
  intros Hraise.
  destruct (read_file_only_generic_error filename) as [(data & Hok) | Hgen].
  - rewrite Hok in Hraise. discriminate.
  - rewrite Hgen in Hraise. injection Hraise as <-. reflexivity.
Qed.

Lemma read_file_csv_raises_only_generic (filename : string) (e : exn) :
  read_file_csv filename = Raise e ->
  e = PlottingError ("Could not read file: " ++ filename).
Proof.
  rewrite read_file_csv_unfold.
  destruct (data <- open_csv filename ;;
            comprehension cast_row (skipn 1 data))%res; simpl.
  - discriminate.
  - intros [= <-]. reflexivity.
Qed.

(** X2: for a path with the extension [.csv], [read_file] behaves exactly
    as [read_file_csv]: the outer handler changes neither the rows
    returned nor the error raised. *)
Theorem read_file_on_csv_path_is_read_file_csv (filename : string) :
  snd (splitext filename) = ".csv" ->
  read_file filename = read_file_csv filename.
Proof.
  intros Hext. rewrite (read_file_csv_extension filename Hext).
  destruct (read_file_csv filename) as [data|e] eqn:Hcsv; simpl.
  - reflexivity.
  - rewrite (read_file_csv_raises_only_generic filename e Hcsv). reflexivity.
Qed.

Lemma map_nth_seq (l : list row) :
  map (fun i => nth i l []) (seq 0 (List.length l)) = l.
Proof.
  induction l as [|r l IH]; simpl.
  - reflexivity.
  - f_equal. rewrite <- seq_shift, map_map. exact IH.
Qed.

Lemma rows_after_header (sheet : list row) :
  map (fun row_index => nth row_index sheet [])
      (seq 1 (List.length sheet - 1)) = skipn 1 sheet.
Proof.
  destruct sheet as [|header rows]; simpl.
  - reflexivity.
  - rewrite Nat.sub_0_r, <- seq_shift, map_map. apply map_nth_seq.
Qed.

(** X3: the spreadsheet reader returns the rows of the first sheet after
    the first one, cell values untouched and in sheet order; the other
    sheets are not read.  A first sheet with no row or only the header
    row gives no data. *)
Theorem read_file_xls_returns_rows_after_header
        (filename : string) (sheet : list row) (others : list (list row)) :
  xlrd_open_workbook filename = Ok (sheet :: others) ->
  read_file_xls filename = Ok (skipn 1 sheet) /\
  (snd (splitext filename) = ".xls" ->
   read_file filename = Ok (skipn 1 sheet)) /\
  (List.length sheet <= 1 -> read_file_xls filename = Ok []).
Proof.
  intros Hopen.
  assert (Hxls : read_file_xls filename = Ok (skipn 1 sheet)).
  { unfold read_file_xls. rewrite Hopen. simpl.
    rewrite rows_after_header. reflexivity. }
  split; [exact Hxls|]. split.
  - intros Hext. unfold read_file. rewrite Hext. simpl.
    rewrite Hxls. reflexivity.
  - intros Hshort. rewrite Hxls.
    destruct sheet as [|header [|r rows]]; simpl in *; try reflexivity; lia.
Qed.

(** X4: a delimited-text file with nothing in it, or with the header row
    only, is read as no data at all, without an error; the header row is
    never cast, whatever it holds. *)
Theorem read_file_csv_without_data_rows_is_empty
        (filename : string) (content : list (list string)) :
  open_csv filename = Ok content ->
  List.length content <= 1 ->
  read_file_csv filename = Ok [].
Proof.
  intros Hopen Hshort. rewrite read_file_csv_unfold, Hopen. simpl.
  destruct content as [|header [|fields rows]]; simpl in *;
    try reflexivity; lia.
Qed.


(* ===================================================================== *)
(** ** Further properties of the series builder                           *)
(* ===================================================================== *)

Lemma item2_returns_iff (point : row) :
  (exists code, item2 point = Ok code) <-> 3 <= List.length point.
Proof.
  unfold item2. destruct (nth_error point 2) as [code|] eqn:Hnth.
  - split; [intros _ | intros _; eexists; reflexivity].
    assert (Hlt : 2 < List.length point)
      by (apply nth_error_Some; rewrite Hnth; discriminate).
    lia.
  - apply nth_error_None in Hnth. split; [intros (code & H); discriminate | lia].
Qed.

Lemma groupby_run_returns (tgtkey : value) (it : list row) :
  Forall (fun point => 3 <= List.length point) it ->
  exists members groups,
    groupby_run item2 py_eq tgtkey it = Ok (members, groups).
Proof.
  intros Hall. revert tgtkey.
  induction Hall as [|point it Hpoint _ IH]; intros tgtkey; simpl.
  - do 2 eexists. reflexivity.
  - apply item2_returns_iff in Hpoint. destruct Hpoint as (code & ->). simpl.
    destruct (py_eq code tgtkey).
    + destruct (IH tgtkey) as (m & g & ->). simpl. do 2 eexists. reflexivity.
    + destruct (IH code) as (m & g & ->). simpl. do 2 eexists. reflexivity.
Qed.

Lemma groupby_run_short_row (tgtkey : value) (it : list row) :
  Exists (fun point => List.length point < 3) it ->
  groupby_run item2 py_eq tgtkey it =
  Raise (IndexError "list index out of range").
Proof.
  intros Hshort. revert tgtkey.
  induction Hshort as [point it Hpoint | point it _ IH]; intros tgtkey; simpl.
  - unfold item2. apply Nat.lt_succ_r, nth_error_None in Hpoint.
    rewrite Hpoint. reflexivity.
  - destruct (item2 point) as [code|e] eqn:Hitem; simpl.
    + destruct (py_eq code tgtkey); rewrite IH; reflexivity.
    + unfold item2 in Hitem. destruct (nth_error point 2); [discriminate|].
      injection Hitem as <-. reflexivity.
Qed.

Lemma make_series_short_row (data : list row) :
  Exists (fun point => List.length point < 3) data ->
  make_series data = Raise (IndexError "list index out of range").
Proof.
  unfold make_series. intros Hshort. destruct data as [|point it]; simpl.
  - inversion Hshort.
  - destruct (item2 point) as [code|e] eqn:Hitem; simpl.
    + inversion Hshort as [? ? Hpoint | ? ? Hrest]; subst.
      * apply Nat.lt_succ_r, nth_error_None in Hpoint.
        unfold item2 in Hitem. rewrite Hpoint in Hitem. discriminate.
      * rewrite (groupby_run_short_row code it Hrest). reflexivity.
    + unfold item2 in Hitem. destruct (nth_error point 2); [discriminate|].
      injection Hitem as <-. reflexivity.
Qed.

(** X5: [make_series] returns exactly when every row has at least three
    entries; one shorter row anywhere in the data (a sheet row with fewer
    than three cells) makes it raise [IndexError], and no series is
    returned. *)
Theorem make_series_raises_exactly_on_short_rows (data : list row) :
  (Forall (fun point => 3 <= List.length point) data ->
   exists data_series, make_series data = Ok data_series) /\
  (Exists (fun point => List.length point < 3) data ->
   make_series data = Raise (IndexError "list index out of range")).
Proof.
  split; [|apply make_series_short_row].
  unfold make_series. intros Hall. destruct data as [|point it]; simpl.
  - eexists. reflexivity.
  - inversion Hall as [|? ? Hpoint Hrest]; subst.
    apply item2_returns_iff in Hpoint. destruct Hpoint as (code & ->). simpl.
    destruct (groupby_run_returns code it Hrest) as (m & g & ->). simpl.
    eexists. reflexivity.
Qed.

Lemma groupby_run_partition (tgtkey : value) (it members : list row)
      (groups : list (value * list row)) :
  groupby_run item2 py_eq tgtkey it = Ok (members, groups) ->
  (members ++ List.concat (map snd groups))%list = it.
Proof.
  revert tgtkey members groups.
  induction it as [|v it IH]; intros tgtkey members groups Hrun; simpl in Hrun.
  - injection Hrun as <- <-. reflexivity.
  - destruct (item2 v) as [k|e]; simpl in Hrun; [|discriminate].
    destruct (py_eq k tgtkey).
    + destruct (groupby_run item2 py_eq tgtkey it) as [[m g]|e] eqn:Hrec;
        simpl in Hrun; [|discriminate].
      injection Hrun as <- <-. simpl. f_equal. eapply IH. exact Hrec.
    + destruct (groupby_run item2 py_eq k it) as [[m g]|e] eqn:Hrec;
        simpl in Hrun; [|discriminate].
      injection Hrun as <- <-. simpl. f_equal. eapply IH. exact Hrec.
Qed.

Lemma make_series_groups (data : list row) (data_series : list series) :
  make_series data = Ok data_series ->
  exists groups,
    data_series = map (fun group : value * list row =>
                         (fst group, map (firstn 2) (snd group))) groups /\
    List.concat (map snd groups) = data /\
    Forall (fun g => snd g <> []) groups.
Proof.
  unfold make_series. intros Hmake.
  destruct (groupby item2 py_eq data) as [groups|e] eqn:Hgroups;
    simpl in Hmake; [|discriminate].
  injection Hmake as <-. exists groups. split; [reflexivity|].
  destruct data as [|v it]; simpl in Hgroups.
  - injection Hgroups as <-. split; [reflexivity|constructor].
  - destruct (item2 v) as [k|e]; simpl in Hgroups; [|discriminate].
    destruct (groupby_run item2 py_eq k it) as [[m g]|e] eqn:Hrun;
      simpl in Hgroups; [|discriminate].
    injection Hgroups as <-. split.
    + simpl. f_equal. eapply groupby_run_partition. exact Hrun.
    + constructor; [simpl; discriminate|].
      eapply groupby_run_nonempty. exact Hrun.
Qed.

Lemma make_series_rows_long (data : list row) (data_series : list series) :
  make_series data = Ok data_series ->
  Forall (fun point => 3 <= List.length point) data.
Proof.
  intros Hmake. apply Forall_forall. intros point Hin.
  destruct (le_dec 3 (List.length point)) as [Hlong|Hshort]; [exact Hlong|].
  exfalso.
  assert (Hex : Exists (fun point : row => List.length point < 3) data).
  { apply Exists_exists. exists point. split; [exact Hin|lia]. }
  apply make_series_short_row in Hex. rewrite Hex in Hmake. discriminate.
Qed.

(** Every series [make_series] returns can be drawn: it has a point, and
    its points have two entries each. *)
Lemma make_series_shape (data : list row) (data_series : list series) :
  make_series data = Ok data_series ->
  Forall (fun s => snd s <> [] /\
                   Forall (fun point => List.length point = 2) (snd s))
         data_series.
Proof.
  intros Hmake.
  pose proof (make_series_rows_long data data_series Hmake) as Hlong.
  destruct (make_series_groups data data_series Hmake)
    as (groups & -> & Hcat & Hne).
  apply Forall_map. rewrite Forall_forall in Hne |- *.
  intros g Hg. cbn [fst snd]. split.
  - specialize (Hne g Hg). destruct (snd g); [congruence|discriminate].
  - apply Forall_map. apply Forall_forall. intros point Hpoint.
    pose proof (in_group_in_concat groups g point Hg Hpoint) as Hin.
    rewrite Hcat in Hin. rewrite Forall_forall in Hlong.
    specialize (Hlong point Hin).
    change (List.length (firstn 2 point) = 2).
    rewrite length_firstn. lia.
Qed.

(** X6: for rows of any shape and codes of any type, when [make_series]
    returns, its series laid end to end are the input rows, each cut to
    its first two entries, in the input order: no row is dropped,
    repeated or moved, and no series is empty. *)
Theorem make_series_keeps_every_row_in_order
        (data : list row) (data_series : list series) :
  make_series data = Ok data_series ->
  List.concat (map snd data_series) = map (firstn 2) data /\
  Forall (fun s => snd s <> [] /\
                   Forall (fun point => List.length point = 2) (snd s))
         data_series.
Proof.
  intros Hmake. split; [|exact (make_series_shape data data_series Hmake)].
  destruct (make_series_groups data data_series Hmake)
    as (groups & -> & Hcat & _).
  rewrite concat_map_points, Hcat. reflexivity.
Qed.

(** The pass over coded points once more, with what each group holds: the
    members of the running group carry the target code, every later group
    is labelled with the code of its own rows, and a group never follows
    one with the same code. *)
Lemma groupby_run_coded_labels (tgt : string) (pts : list (coded_point num)) :
  exists members groups,
    groupby_run item2 py_eq (VStr tgt) (map row_of pts) = Ok (members, groups) /\
    Forall (fun r => exists p, r = row_of p /\ code_of p = tgt) members /\
    Forall (fun g => Forall (fun r => exists p, r = row_of p /\
                                               fst g = VStr (code_of p))
                            (snd g)) groups /\
    HdRel (fun c1 c2 : value => c1 <> c2) (VStr tgt) (map fst groups) /\
    Sorted (fun c1 c2 : value => c1 <> c2) (map fst groups).
Proof.
  revert tgt. induction pts as [|p pts IH]; intros tgt.
  - exists [], []. repeat split; constructor.
  - simpl. rewrite item2_row_of. simpl.
    destruct (IH (code_of p)) as (m & g & Hrun & Hm & Hg & Hhd & Hsorted).
    destruct (String.eqb (code_of p) tgt) eqn:Hcode.
    + apply String.eqb_eq in Hcode. subst tgt.
      rewrite Hrun. simpl. exists (row_of p :: m), g.
      repeat split; auto. constructor; [|exact Hm].
      exists p. split; reflexivity.
    + rewrite Hrun. simpl.
      exists [], ((VStr (code_of p), row_of p :: m) :: g).
      split; [reflexivity|]. split; [constructor|]. split; [|split].
      * constructor; [|exact Hg]. simpl. constructor.
        -- exists p. split; reflexivity.
        -- eapply Forall_impl; [|exact Hm].
           intros r (q & -> & Hq). exists q. rewrite Hq. split; reflexivity.
      * simpl. constructor. intros [= Heq].
        rewrite Heq, String.eqb_refl in Hcode. discriminate.
      * simpl. constructor; assumption.
Qed.

Lemma attach_code_restores (k : value) (rows : list row) :
  Forall (fun r => exists p : coded_point num,
                     r = row_of p /\ k = VStr (code_of p)) rows ->
  attach_code (k, map (firstn 2) rows) = rows.
Proof.
  unfold attach_code. simpl. rewrite map_map.
  induction 1 as [|r rows (p & -> & ->) _ IH]; simpl.
  - reflexivity.
  - rewrite IH. destruct p as [[distance elevation] code]. reflexivity.
Qed.

Lemma sorted_neighbours {A} (R : A -> A -> Prop) (l : list A) :
  Sorted R l ->
  forall i a b, nth_error l i = Some a -> nth_error l (S i) = Some b -> R a b.
Proof.
  induction 1 as [|x l _ IH Hhd]; intros i a b Ha Hb.
  - destruct i; discriminate.
  - destruct i as [|i]; simpl in Ha, Hb.
    + injection Ha as <-. destruct Hhd as [|y l' Hxy]; [discriminate|].
      simpl in Hb. injection Hb as <-. exact Hxy.
    + eapply IH; eassumption.
Qed.

Lemma groupby_coded_labels (pts : list (coded_point num)) :
  exists groups,
    groupby item2 py_eq (map row_of pts) = Ok groups /\
    List.concat (map snd groups) = map row_of pts /\
    Forall (fun g => Forall (fun r => exists p, r = row_of p /\
                                               fst g = VStr (code_of p))
                            (snd g)) groups /\
    Sorted (fun c1 c2 : value => c1 <> c2) (map fst groups).
Proof.
  destruct pts as [|p pts].
  - exists []. repeat split; constructor.
  - cbn [map groupby]. rewrite item2_row_of. cbn [bind].
    destruct (groupby_run_coded_labels (code_of p) pts)
      as (m & g & Hrun & Hm & Hg & Hhd & Hsorted).
    pose proof (groupby_run_partition _ _ _ _ Hrun) as Hcat.
    rewrite Hrun. cbn [bind].
    exists ((VStr (code_of p), row_of p :: m) :: g).
    split; [reflexivity|]. split; [|split].
    + cbn [map List.concat snd app]. rewrite Hcat. reflexivity.
    + constructor; [|exact Hg]. cbn [fst snd]. constructor.
      * exists p. split; reflexivity.
      * eapply Forall_impl; [|exact Hm].
        intros r (q & -> & Hq). exists q. rewrite Hq. split; reflexivity.
    + cbn [map fst]. constructor; assumption.
Qed.

Lemma stripped_codes (groups : list (value * list row)) :
  map fst (map (fun group : value * list row =>
                  (fst group, map (firstn 2) (snd group))) groups)
  = map fst groups.
Proof. rewrite map_map. reflexivity. Qed.

(** X7: on coded points the grouping loses nothing but the position of the
    code: putting the code of every series back as the third entry of its
    points and laying the series end to end gives back the input rows.  In
    particular every point of a series came from a row carrying that
    series' code. *)
Theorem make_series_codes_can_be_put_back (pts : list (coded_point num)) :
  exists data_series,
    make_series (map row_of pts) = Ok data_series /\
    flat_map attach_code data_series = map row_of pts.
Proof.
  destruct (groupby_coded_labels pts) as (groups & Hgroups & Hcat & Hlabels & _).
  unfold make_series. rewrite Hgroups. cbn [bind].
  eexists. split; [reflexivity|].
  rewrite <- Hcat. clear Hgroups Hcat.
  induction Hlabels as [|[k rows] groups Hrows _ IH].
  - reflexivity.
  - cbn [map flat_map List.concat fst snd]. rewrite IH. f_equal.
    apply attach_code_restores. exact Hrows.
Qed.

(** X8: on coded points two neighbouring series never carry the same
    code: each series is a whole run, not a piece of one. *)
Theorem make_series_neighbours_differ_in_code (pts : list (coded_point num)) :
  exists data_series,
    make_series (map row_of pts) = Ok data_series /\
    forall i s1 s2,
      nth_error data_series i = Some s1 ->
      nth_error data_series (S i) = Some s2 ->
      fst s1 <> fst s2.
Proof.
  destruct (groupby_coded_labels pts) as (groups & Hgroups & _ & _ & Hsorted).
  unfold make_series. rewrite Hgroups. cbn [bind].
  eexists. split; [reflexivity|].
  intros i s1 s2 H1 H2.
  apply (sorted_neighbours _ _ Hsorted i);
    rewrite <- stripped_codes, nth_error_map.
  - exact (f_equal (option_map fst) H1).
  - exact (f_equal (option_map fst) H2).
Qed.

(* ===================================================================== *)
(** ** Further properties of the colour registry                          *)
(* ===================================================================== *)

Lemma od_setitem_absent (d : list (string * list num)) k v :
  ~ In k (map fst d) -> od_setitem d k v = (d ++ [(k, v)])%list.
Proof.
  induction d as [|[k0 v0] d IH]; simpl; intros Hnot.
  - reflexivity.
  - destruct (String.eqb k0 k) eqn:Hk.
    + apply String.eqb_eq in Hk. contradiction Hnot. left. exact Hk.
    + rewrite IH; [reflexivity|]. intros Hin. apply Hnot. right. exact Hin.
Qed.

Lemma od_setitem_present_keys (d : list (string * list num)) k v :
  In k (map fst d) -> map fst (od_setitem d k v) = map fst d.
Proof.
  induction d as [|[k0 v0] d IH]; simpl; intros Hin.
  - contradiction.
  - destruct (String.eqb k0 k) eqn:Hk; simpl.
    + reflexivity.
    + apply String.eqb_neq in Hk. destruct Hin as [Heq|Hin]; [contradiction|].
      rewrite IH; [reflexivity|exact Hin].
Qed.

Lemma in_dec_string (k : string) (l : list string) : In k l \/ ~ In k l.
Proof. destruct (in_dec string_dec k l); [left|right]; assumption. Qed.

Lemma od_setitem_nodup (d : list (string * list num)) k v :
  NoDup (map fst d) -> NoDup (map fst (od_setitem d k v)).
Proof.
  intros Hnodup. destruct (in_dec_string k (map fst d)) as [Hin|Hnot].
  - rewrite od_setitem_present_keys; assumption.
  - rewrite od_setitem_absent, map_app by exact Hnot. simpl.
    apply NoDup_app; [exact Hnodup | repeat constructor; intros [] |].
    intros x Hx [<-|[]]. contradiction.
Qed.

Lemma fold_od_setitem_nodup (pairs d : list (string * list num)) :
  NoDup (map fst d) ->
  NoDup (map fst (fold_left (fun d kv => od_setitem d (fst kv) (snd kv))
                            pairs d)).
Proof.
  revert d. induction pairs as [|[k v] pairs IH]; intros d Hnodup; simpl.
  - exact Hnodup.
  - apply IH, od_setitem_nodup, Hnodup.
Qed.

Lemma fold_od_setitem_distinct (pairs d : list (string * list num)) :
  NoDup (map fst (d ++ pairs)) ->
  fold_left (fun d kv => od_setitem d (fst kv) (snd kv)) pairs d
  = (d ++ pairs)%list.
Proof.
  revert d. induction pairs as [|[k v] pairs IH]; intros d Hnodup; simpl.
  - rewrite app_nil_r. reflexivity.
  - assert (Hcons : (d ++ (k, v) :: pairs = (d ++ [(k, v)]) ++ pairs)%list)
      by (rewrite <- app_assoc; reflexivity).
    rewrite od_setitem_absent.
    + rewrite IH; [symmetry; exact Hcons|]. rewrite <- Hcons. exact Hnodup.
    + rewrite map_app in Hnodup. simpl in Hnodup.
      apply NoDup_remove_2 in Hnodup.
      intros Hin. apply Hnodup. apply in_or_app. left. exact Hin.
Qed.

Lemma tuple_index_of_position (t : list string) (s : string) (rank : nat) :
  NoDup t -> nth_error t rank = Some s -> tuple_index t (VStr s) = Ok rank.
Proof.
  intros Hnodup. revert rank.
  induction Hnodup as [|k t Hnotin _ IH]; intros rank Hnth.
  - destruct rank; discriminate.
  - destruct rank as [|rank]; simpl in Hnth.
    + injection Hnth as ->. simpl. rewrite String.eqb_refl. reflexivity.
    + cbn [tuple_index py_eq].
      destruct (String.eqb k s) eqn:Hk.
      * apply String.eqb_eq in Hk. subst k.
        contradiction Hnotin. eapply nth_error_In. exact Hnth.
      * rewrite (IH rank Hnth). reflexivity.
Qed.

Lemma dict_getitem_of_position (d : list (string * list num)) s v rank :
  NoDup (map fst d) -> nth_error d rank = Some (s, v) ->
  dict_getitem d (VStr s) = Ok v.
Proof.
  revert rank. induction d as [|[k0 v0] d IH]; intros rank Hnodup Hnth.
  - destruct rank; discriminate.
  - simpl in Hnodup. inversion Hnodup as [|? ? Hnotin Hnodup']; subst.
    destruct rank as [|rank]; simpl in Hnth.
    + injection Hnth as -> ->. simpl. rewrite String.eqb_refl. reflexivity.
    + simpl. destruct (String.eqb k0 s) eqn:Hk.
      * apply String.eqb_eq in Hk. subst k0. contradiction Hnotin.
        apply nth_error_In in Hnth. apply (in_map fst) in Hnth. exact Hnth.
      * eapply IH; eassumption.
Qed.

(** X9: however the configuration repeats its codes, the registry built
    from it holds every configured code exactly once: its tuple of keys
    has no duplicates and has the configured codes as members. *)
Theorem Colors_keys_are_the_codes_without_repeats
        (colors : list (string * list num)) :
  NoDup (_keys (Colors_init colors)) /\
  (forall k, In k (_keys (Colors_init colors)) <-> In k (map fst colors)) /\
  List.length (_keys (Colors_init colors)) <= List.length colors.
Proof.
  assert (Hnodup : NoDup (_keys (Colors_init colors))).
  { unfold Colors_init, OrderedDict. simpl.
    apply fold_od_setitem_nodup. constructor. }
  split; [exact Hnodup|]. split; [apply Colors_init_keys|].
  rewrite <- (length_map fst colors).
  apply NoDup_incl_length; [exact Hnodup|].
  intros k Hk. apply Colors_init_keys. exact Hk.
Qed.

(** X10: the rank lookup and the tuple of keys are inverse to each other:
    [index] returns [rank] for a code exactly when the code is the string
    at position [rank] of the keys, so a rank is always below the number
    of keys and two codes never share a rank. *)
Theorem Colors_index_is_the_position_in_the_keys
        (colors : list (string * list num)) (code : value) (rank : nat) :
  Colors_index (Colors_init colors) code = Ok rank <->
  exists s, code = VStr s /\
            nth_error (_keys (Colors_init colors)) rank = Some s.
Proof.
  split.
  - intros Hrank. unfold Colors_index in Hrank.
    apply tuple_index_position.
    destruct (tuple_index (_keys (Colors_init colors)) code);
      [exact Hrank|discriminate].
  - intros (s & -> & Hnth). unfold Colors_index.
    rewrite (tuple_index_of_position _ s rank); [reflexivity | | exact Hnth].
    unfold Colors_init, OrderedDict. simpl.
    apply fold_od_setitem_nodup. constructor.
Qed.

(** X11: a configuration whose codes are distinct is taken over as it is:
    the entry at position [rank] of the configuration has that rank in the
    registry and is looked up with its own colour. *)
Theorem Colors_of_distinct_codes_keeps_the_configuration
        (colors : list (string * list num)) (rank : nat)
        (s : string) (color : list num) :
  NoDup (map fst colors) ->
  nth_error colors rank = Some (s, color) ->
  _colors (Colors_init colors) = colors /\
  Colors_index (Colors_init colors) (VStr s) = Ok rank /\
  Colors_getitem (Colors_init colors) (VStr s) = Ok color.
Proof.
  intros Hnodup Hnth.
  assert (Hdict : OrderedDict colors = colors).
  { unfold OrderedDict. apply (fold_od_setitem_distinct colors []). exact Hnodup. }
  unfold Colors_init, Colors_index, Colors_getitem. simpl. rewrite Hdict.
  split; [reflexivity|]. split.
  - rewrite (tuple_index_of_position _ s rank); [reflexivity | exact Hnodup |].
    rewrite nth_error_map, Hnth. reflexivity.
  - rewrite (dict_getitem_of_position colors s color rank Hnodup Hnth).
    reflexivity.
Qed.

Lemma dict_getitem_od_setitem (d : list (string * list num)) k v :
  dict_getitem (od_setitem d k v) (VStr k) = Ok v.
Proof.
  induction d as [|[k0 v0] d IH]; simpl.
  - rewrite String.eqb_refl. reflexivity.
  - destruct (String.eqb k0 k) eqn:Hk; simpl; rewrite Hk; [reflexivity|exact IH].
Qed.

(** X12: when the configuration lists a code a second time, the later
    colour replaces the earlier one and the code keeps the rank of its
    first entry: the keys of the registry do not change. *)
Theorem Colors_later_entry_replaces_the_colour_only
        (colors : list (string * list num)) (s : string) (color : list num) :
  In s (map fst colors) ->
  _keys (Colors_init (colors ++ [(s, color)])) = _keys (Colors_init colors) /\
  Colors_getitem (Colors_init (colors ++ [(s, color)])) (VStr s) = Ok color.
Proof.
  intros Hin.
  assert (Hdict : OrderedDict (colors ++ [(s, color)])
                  = od_setitem (OrderedDict colors) s color).
  { unfold OrderedDict. rewrite fold_left_app. reflexivity. }
  unfold Colors_init, Colors_getitem. simpl. rewrite Hdict. split.
  - apply od_setitem_present_keys.
    apply (Colors_init_keys colors s). exact Hin.
  - rewrite dict_getitem_od_setitem. reflexivity.
Qed.


(* ===================================================================== *)
(** ** Further properties of the renderer                                 *)
(* ===================================================================== *)

Lemma call_returns (ev : event) (tr : list event) :
  (forall tr ev, backend tr ev = None) ->
  call ev tr = (Ok tt, (tr ++ [ev])%list).
Proof. intros Hquiet. unfold call. rewrite Hquiet. reflexivity. Qed.

Lemma plot_series_returns (s : series) (color : list num) (tr : list event) :
  (forall tr ev, backend tr ev = None) ->
  snd s <> [] ->
  Forall (fun point => List.length point = 2) (snd s) ->
  Colors_getitem code_colors (fst s) = Ok color ->
  plot_series s tr = (Ok tt, (tr ++ [plot_call s])%list).
Proof.
  intros Hquiet Hne Hpairs Hcolor. destruct s as [code data].
  unfold plot_series, plot_call, color_of, io_bind, lift.
  cbn [fst snd] in *. rewrite Hcolor.
  rewrite (zip_star_pairs (VStr "") data Hne Hpairs). cbn [unpack2].
  apply call_returns. exact Hquiet.
Qed.

Lemma for_each_plot_series_returns (data_series : list series)
      (tr : list event) :
  (forall tr ev, backend tr ev = None) ->
  Forall (fun s => snd s <> [] /\
                   Forall (fun point => List.length point = 2) (snd s))
         data_series ->
  (forall s, In s data_series ->
             exists color, Colors_getitem code_colors (fst s) = Ok color) ->
  for_each data_series plot_series tr
  = (Ok tt, (tr ++ map plot_call data_series)%list).
Proof.
  intros Hquiet Hshape. revert tr.
  induction Hshape as [|s data_series [Hne Hpairs] _ IH]; intros tr Hcolors.
  - simpl. unfold io_ret. rewrite app_nil_r. reflexivity.
  - destruct (Hcolors s (or_introl eq_refl)) as (color & Hcolor).
    cbn [for_each map]. unfold io_bind.
    rewrite (plot_series_returns s color tr Hquiet Hne Hpairs Hcolor).
    rewrite IH by (intros s' Hs'; apply Hcolors; right; exact Hs').
    rewrite <- app_assoc. reflexivity.
Qed.

Lemma Colors_getitem_unknown (colors : list (string * list num))
      (code : value) :
  code_colors = Colors_init colors ->
  ~ In code (map VStr (map fst colors)) ->
  Colors_getitem code_colors code =
  Raise (PlottingError ("Could not find code: " ++ format_value code
                        ++ ", you may need to add it to 'code_colors'")).
Proof.
  intros Hinit Hnot. rewrite Hinit. unfold Colors_getitem.
  rewrite dict_getitem_unknown; [reflexivity|].
  rewrite Colors_init_colors_keys. rewrite in_map_VStr_keys. exact Hnot.
Qed.

Lemma Colors_index_unknown (colors : list (string * list num))
      (code : value) :
  code_colors = Colors_init colors ->
  ~ In code (map VStr (map fst colors)) ->
  Colors_index code_colors code =
  Raise (PlottingError ("Could not find code: " ++ format_value code
                        ++ ", you may need to add it to 'code_colors'")).
Proof.
  intros Hinit Hnot. rewrite Hinit. unfold Colors_index.
  destruct (tuple_index_unknown (_keys (Colors_init colors)) code) as (e & ->).
  - rewrite in_map_VStr_keys. exact Hnot.
  - reflexivity.
Qed.

(** The series are drawn in order until the first one whose code has no
    colour. *)
Lemma plot_data_stops_at_the_first_unconfigured_series
        (colors : list (string * list num)) (data : list row)
        (drawn : list series) (s : series) (rest : list series)
        (legend_position output : string) (tr : list event) :
  code_colors = Colors_init colors ->
  (forall tr ev, backend tr ev = None) ->
  make_series data = Ok (drawn ++ s :: rest)%list ->
  (forall s', In s' drawn -> In (fst s') (map VStr (map fst colors))) ->
  ~ In (fst s) (map VStr (map fst colors)) ->
  plot_data (drawn ++ s :: rest) legend_position output tr =
  (Raise (PlottingError ("Could not find code: " ++ format_value (fst s)
                         ++ ", you may need to add it to 'code_colors'")),
   (tr ++ axes_setup ++ map plot_call drawn)%list).
Proof.
  intros Hinit Hquiet Hmake Hdrawn Hunknown.
  pose proof (make_series_shape data _ Hmake) as Hshape.
  apply Forall_app in Hshape. destruct Hshape as [Hshape _].
  assert (Hloop : forall tr0,
             for_each (drawn ++ s :: rest) plot_series tr0 =
             (Raise (PlottingError
                       ("Could not find code: " ++ format_value (fst s)
                        ++ ", you may need to add it to 'code_colors'")),
              (tr0 ++ map plot_call drawn)%list)).
  { clear Hmake. induction Hshape as [|s' drawn [Hne Hpairs] _ IH]; intros tr0.
    - cbn [app for_each map]. unfold io_bind. destruct s as [code points].
      unfold plot_series, io_bind, lift. cbn [fst] in *.
      rewrite (Colors_getitem_unknown colors code Hinit Hunknown).
      rewrite app_nil_r. reflexivity.
    - destruct (configured_code_has_rank_and_color colors (fst s') Hinit)
        as [_ (color & Hcolor)].
      { apply Hdrawn. left. reflexivity. }
      cbn [app for_each map]. unfold io_bind.
      rewrite (plot_series_returns s' color tr0 Hquiet Hne Hpairs Hcolor).
      rewrite IH by (intros s'' Hs''; apply Hdrawn; right; exact Hs'').
      rewrite <- app_assoc. reflexivity. }
  unfold plot_data, io_bind.
  rewrite !call_returns by exact Hquiet.
  rewrite Hloop. unfold axes_setup. rewrite <- !app_assoc. reflexivity.
Qed.


(** A comprehension raises what its first failing element raises. *)
Lemma comprehension_first_failure {A B} (f : A -> result B) (l : list A) :
  (exists a e, In a l /\ f a = Raise e) ->
  exists a e, In a l /\ f a = Raise e /\ comprehension f l = Raise e.
Proof.
  induction l as [|a0 l IH]; intros (a & e & Hin & Hfail).
  - contradiction.
  - simpl. destruct (f a0) as [b|e0] eqn:Hhead.
    + destruct Hin as [->|Hin]; [rewrite Hhead in Hfail; discriminate|].
      destruct IH as (a' & e' & Hin' & Hfail' & Hcomp);
        [exists a, e; split; assumption|].
      exists a', e'. simpl. rewrite Hcomp.
      split; [right; exact Hin'|]. split; [exact Hfail'|reflexivity].
    + exists a0, e0. simpl.
      split; [left; reflexivity|]. split; [exact Hhead|reflexivity].
Qed.

Lemma Colors_index_raises_only_for_unknown
      (colors : list (string * list num)) (code : value) (e : exn) :
  code_colors = Colors_init colors ->
  Colors_index code_colors code = Raise e ->
  ~ In code (map VStr (map fst colors)) /\
  e = PlottingError ("Could not find code: " ++ format_value code
                     ++ ", you may need to add it to 'code_colors'").
Proof.
  intros Hinit Hraise. split.
  - intros Hin.
    destruct (configured_code_has_rank_and_color colors code Hinit Hin)
      as [(rank & Hrank) _].
    rewrite Hrank in Hraise. discriminate.
  - unfold Colors_index in Hraise.
    destruct (tuple_index (_keys code_colors) code); simpl in Hraise;
      [discriminate|].
    unfold Colors_error in Hraise. injection Hraise as <-. reflexivity.
Qed.

(** X13: when some series carries a code without a colour, [make_legend]
    raises the error naming one such code and [ax.legend] is not called:
    no partial legend is drawn. *)
Theorem make_legend_without_a_colour_draws_no_legend
        (colors : list (string * list num)) (data_series : list series)
        (location : string) (tr : list event) :
  code_colors = Colors_init colors ->
  (forall c, In c (set_iter (map fst data_series)) <->
             In c (map fst data_series)) ->
  (exists s, In s data_series /\
             ~ In (fst s) (map VStr (map fst colors))) ->
  exists code,
    In code (map fst data_series) /\
    ~ In code (map VStr (map fst colors)) /\
    make_legend data_series location tr =
    (Raise (PlottingError ("Could not find code: " ++ format_value code
                           ++ ", you may need to add it to 'code_colors'")),
     tr).
Proof.
  intros Hinit Hset (s & Hs & Hunknown).
  destruct (comprehension_first_failure
              (fun a => k <- Colors_index code_colors a ;; Ok (k, a))%res
              (set_iter (map fst data_series)))
    as (code & e & Hin & Hfail & Hcomp).
  { exists (fst s). eexists. split.
    - apply Hset. apply in_map. exact Hs.
    - rewrite (Colors_index_unknown colors (fst s) Hinit Hunknown).
      reflexivity. }
  destruct (Colors_index code_colors code) as [rank|e'] eqn:Hindex;
    simpl in Hfail; [discriminate|].
  injection Hfail as <-.
  destruct (Colors_index_raises_only_for_unknown colors code e' Hinit Hindex)
    as [Hcode ->].
  exists code. split; [apply Hset; exact Hin|]. split; [exact Hcode|].
  unfold make_legend, sorted, io_bind, lift. rewrite Hcomp. reflexivity.
Qed.

Lemma looked_up_colors (labels : list value) (custom_lines : list (list num)) :
  Forall2 (fun c line => Colors_getitem code_colors c = Ok line)
          labels custom_lines ->
  custom_lines = map color_of labels.
Proof.
  induction 1 as [|c line labels lines Hc _ IH].
  - reflexivity.
  - simpl. unfold color_of at 1. rewrite Hc. f_equal. exact IH.
Qed.

Lemma make_legend_returns
      (colors : list (string * list num)) (data_series : list series)
      (location : string) (tr : list event) :
  code_colors = Colors_init colors ->
  (forall tr ev, backend tr ev = None) ->
  NoDup (set_iter (map fst data_series)) ->
  (forall c, In c (set_iter (map fst data_series)) <->
             In c (map fst data_series)) ->
  (forall c, In c (map fst data_series) -> In c (map VStr (map fst colors))) ->
  exists labels custom_lines,
    make_legend data_series location tr =
    (Ok tt, (tr ++ [ax_legend custom_lines labels location])%list) /\
    Permutation labels (set_iter (map fst data_series)) /\
    StronglySorted ranked_before labels /\
    custom_lines = map color_of labels.
Proof.
  intros Hinit Hquiet Hnodup Hset Hconf.
  destruct (sorted_by_rank (set_iter (map fst data_series)) Hnodup)
    as (labels & Hsorted & Hperm & Hranked).
  { intros c Hc. apply Hset, Hconf in Hc.
    apply (configured_code_has_rank_and_color colors c Hinit Hc). }
  destruct (comprehension_returns (Colors_getitem code_colors) labels)
    as (custom_lines & Hlines & Hcolors).
  { intros c Hc. apply (Permutation_in _ Hperm), Hset, Hconf in Hc.
    apply (configured_code_has_rank_and_color colors c Hinit Hc). }
  exists labels, custom_lines. split; [|split; [exact Hperm|split]].
  - unfold make_legend, io_bind, lift. rewrite Hsorted, Hlines.
    apply call_returns. exact Hquiet.
  - exact Hranked.
  - apply looked_up_colors. exact Hcolors.
Qed.

(** X14: the whole run when nothing goes wrong.  If the file is read, all
    codes of the series have a colour and matplotlib does not raise, then
    [do_plot] returns after exactly these calls, in this order: the axes
    with their fixed limits, one [plot] per series in series order, one
    legend holding each code of the series once with its colour, the two
    axis labels, the save when an output path is given, and the window. *)
Theorem do_plot_makes_the_calls_of_a_full_chart
        (colors : list (string * list num)) (data : list row)
        (data_series : list series)
        (input legend_position output : string) (tr : list event) :
  code_colors = Colors_init colors ->
  (forall tr ev, backend tr ev = None) ->
  read_file input = Ok data ->
  make_series data = Ok data_series ->
  NoDup (set_iter (map fst data_series)) ->
  (forall c, In c (set_iter (map fst data_series)) <->
             In c (map fst data_series)) ->
  (forall c, In c (map fst data_series) -> In c (map VStr (map fst colors))) ->
  exists labels,
    do_plot input legend_position output tr =
    (Ok tt,
     (tr ++ axes_setup ++ map plot_call data_series
         ++ [ax_legend (map color_of labels) labels legend_position]
         ++ finishing_calls output ++ [plt_show])%list) /\
    NoDup labels /\
    (forall c, In c labels <-> In c (map fst data_series)).
Proof.
  intros Hinit Hquiet Hread Hmake Hnodup Hset Hconf.
  pose proof (make_series_shape data data_series Hmake) as Hshape.
  assert (Hcolors : forall s, In s data_series ->
             exists color, Colors_getitem code_colors (fst s) = Ok color).
  { intros s Hs.
    apply (configured_code_has_rank_and_color colors (fst s) Hinit).
    apply Hconf, in_map, Hs. }
  set (tr3 := (tr ++ axes_setup)%list).
  set (tr4 := (tr3 ++ map plot_call data_series)%list).
  destruct (make_legend_returns colors data_series legend_position tr4
              Hinit Hquiet Hnodup Hset Hconf)
    as (labels & custom_lines & Hlegend & Hperm & _ & ->).
  exists labels. split; [|split].
  - unfold do_plot, io_bind, lift. rewrite Hread, Hmake.
    unfold plot_data, io_bind.
    rewrite !call_returns by exact Hquiet.
    replace (((tr ++ [plt_subplots]) ++ [ax_set_xlim x_min x_max])
               ++ [ax_set_ylim y_min y_max])%list with tr3
      by (unfold tr3, axes_setup; rewrite <- !app_assoc; reflexivity).
    rewrite (for_each_plot_series_returns data_series tr3 Hquiet Hshape Hcolors).
    fold tr4. rewrite Hlegend.
    rewrite !call_returns by exact Hquiet.
    unfold finishing_calls, tr4, tr3.
    destruct (String.eqb output "").
    + unfold io_ret. rewrite call_returns by exact Hquiet.
      rewrite <- !app_assoc. reflexivity.
    + rewrite !call_returns by exact Hquiet.
      rewrite <- !app_assoc. reflexivity.
  - eapply Permutation_NoDup; [apply Permutation_sym, Hperm | exact Hnodup].
  - intros c. rewrite <- Hset. split; apply Permutation_in;
      [exact Hperm | apply Permutation_sym, Hperm].
Qed.


(* ===================================================================== *)
(** ** Further properties of the form                                     *)
(* ===================================================================== *)

Lemma appends_only_lift {A} (P : event -> Prop) (r : result A) :
  appends_only P (lift r).
Proof.
  intros tr. exists []. split; [symmetry; apply app_nil_r|constructor].
Qed.

Lemma appends_only_ret {A} (P : event -> Prop) (a : A) :
  appends_only P (io_ret a).
Proof.
  intros tr. exists []. split; [symmetry; apply app_nil_r|constructor].
Qed.

Lemma appends_only_call (P : event -> Prop) (ev : event) :
  P ev -> appends_only P (call ev).
Proof.
  intros Hev tr. exists [ev]. split; [apply snd_call|].
  constructor; [exact Hev|constructor].
Qed.

Lemma appends_only_bind {A B} (P : event -> Prop)
      (m : io A) (k : A -> io B) :
  appends_only P m -> (forall a, appends_only P (k a)) ->
  appends_only P (io_bind m k).
Proof.
  intros Hm Hk tr. unfold io_bind.
  destruct (Hm tr) as (evs & Htr & Hevs).
  destruct (m tr) as [[a|e] tr']; simpl in Htr; subst tr'.
  - destruct (Hk a (tr ++ evs)%list) as (evs' & Htr' & Hevs').
    exists (evs ++ evs')%list. split.
    + rewrite Htr', app_assoc. reflexivity.
    + apply Forall_app. split; assumption.
  - exists evs. split; [reflexivity|exact Hevs].
Qed.

Lemma appends_only_for_each {A} (P : event -> Prop)
      (l : list A) (body : A -> io unit) :
  (forall a, appends_only P (body a)) -> appends_only P (for_each l body).
Proof.
  intros Hbody. induction l as [|a l IH]; simpl.
  - apply appends_only_ret.
  - apply appends_only_bind; [apply Hbody | intros _; exact IH].
Qed.

Lemma draws_only (output : string) (ev : event) :
  is_matplotlib_call ev = true ->
  (forall fname, ev <> plt_savefig fname) ->
  draws_and_saves_only_to output ev.
Proof.
  intros Hcall Hnot. split; [exact Hcall|].
  intros fname Hev. contradiction (Hnot fname).
Qed.

(** The pipeline talks to matplotlib only, and saves only where it was
    told to. *)
Lemma do_plot_draws_and_saves_only_to_output
      (input legend_position output : string) :
  appends_only (draws_and_saves_only_to output)
               (do_plot input legend_position output).
Proof.
  unfold do_plot.
  apply appends_only_bind; [apply appends_only_lift|]. intros data.
  apply appends_only_bind; [apply appends_only_lift|]. intros data_series.
  apply appends_only_bind;
    [|intros _; apply appends_only_call, draws_only;
      [reflexivity|discriminate]].
  unfold plot_data.
  repeat (apply appends_only_bind;
          [apply appends_only_call, draws_only; [reflexivity|discriminate]
          |intros _]).
  apply appends_only_bind.
  { apply appends_only_for_each. intros [code points]. unfold plot_series.
    apply appends_only_bind; [apply appends_only_lift|]. intros color.
    apply appends_only_bind; [apply appends_only_lift|]. intros [x_data y_data].
    apply appends_only_call, draws_only; [reflexivity|discriminate]. }
  intros _. apply appends_only_bind.
  { unfold make_legend.
    apply appends_only_bind; [apply appends_only_lift|]. intros labels.
    apply appends_only_bind; [apply appends_only_lift|]. intros custom_lines.
    apply appends_only_call, draws_only; [reflexivity|discriminate]. }
  intros _.
  repeat (apply appends_only_bind;
          [apply appends_only_call, draws_only; [reflexivity|discriminate]
          |intros _]).
  destruct (String.eqb output "") eqn:Houtput.
  - apply appends_only_ret.
  - apply appends_only_call. split; [reflexivity|].
    intros fname [= <-]. split; [reflexivity|].
    apply String.eqb_neq. exact Houtput.
Qed.

(** X15: one press of the Plot button.  [View.plot] returns normally and
    leaves the earlier calls in place; what it adds is a run of calls into
    matplotlib followed by at most one message box, shown only after the
    drawing stopped.  A [savefig] among the calls is always for the stored
    output path, and there is none when no output file was chosen. *)
Theorem View_plot_draws_then_reports_at_most_once
        (self : View) (tr : list event) :
  exists calls reports,
    View_plot self tr = (Ok tt, (tr ++ calls ++ reports)%list) /\
    Forall (draws_and_saves_only_to (output_file self)) calls /\
    (reports = [] \/
     (exists message, reports = [showerror message]) \/
     (exists err,
         reports =
         [showerror
            "Something unexpected went wrong, make sure your input file is formated correctly";
          print err])).
Proof.
  destruct (do_plot_draws_and_saves_only_to_output
              (selected_file self) (lower (legend_position self))
              (output_file self) tr) as (calls & Htr & Hcalls).
  unfold View_plot, io_try.
  destruct (do_plot (selected_file self) (lower (legend_position self))
                    (output_file self) tr) as [[[]|err] after];
    simpl in Htr; subst after; exists calls.
  - exists []. rewrite app_nil_r. auto.
  - destruct err;
      try (eexists; split;
           [unfold io_bind, emit; cbn; rewrite <- !app_assoc; reflexivity|];
           split; [exact Hcalls|]; right; right; eexists; reflexivity).
    exists [showerror message]. split; [|split; [exact Hcalls|]].
    + unfold emit. rewrite <- app_assoc. reflexivity.
    + right. left. eexists. reflexivity.
Qed.

(** X16: when the input file cannot be read (no file chosen yet, an
    unsupported extension, a missing or malformed file), a press of the
    Plot button calls nothing in matplotlib and shows exactly one message
    box, "Could not read file" with the stored input path. *)
Theorem View_plot_on_unreadable_input_only_reports
        (self : View) (tr : list event) (e : exn) :
  read_file (selected_file self) = Raise e ->
  View_plot self tr =
  (Ok tt,
   (tr ++ [showerror ("Could not read file: " ++ selected_file self)])%list).
Proof.
  intros Hraise.
  destruct (read_file_only_generic_error (selected_file self))
    as [(data & Hok) | Hgen]; [rewrite Hok in Hraise; discriminate|].
  unfold View_plot, io_try, do_plot, io_bind, lift. rewrite Hgen.
  reflexivity.
Qed.

(** X17: a code in the file that has no colour is reported by name.  With
    matplotlib not raising, a press of the Plot button sets up the axes,
    draws the series that come before the first one with such a code, and
    then shows one message box naming that code; the later series, the
    legend, the save and the window are never reached. *)
Theorem View_plot_draws_up_to_the_first_unconfigured_code
        (colors : list (string * list num)) (self : View)
        (data : list row) (drawn : list series) (s : series)
        (rest : list series) (tr : list event) :
  code_colors = Colors_init colors ->
  (forall tr ev, backend tr ev = None) ->
  read_file (selected_file self) = Ok data ->
  make_series data = Ok (drawn ++ s :: rest)%list ->
  (forall s', In s' drawn -> In (fst s') (map VStr (map fst colors))) ->
  ~ In (fst s) (map VStr (map fst colors)) ->
  View_plot self tr =
  (Ok tt,
   (tr ++ axes_setup ++ map plot_call drawn ++
       [showerror ("Could not find code: " ++ format_value (fst s)
                   ++ ", you may need to add it to 'code_colors'")])%list).
Proof.
  intros Hinit Hquiet Hread Hmake Hdrawn Hunknown.
  unfold View_plot, io_try, do_plot, io_bind, lift. rewrite Hread, Hmake.
  rewrite (plot_data_stops_at_the_first_unconfigured_series
             colors data drawn s rest _ _ tr
             Hinit Hquiet Hmake Hdrawn Hunknown).
  unfold emit. rewrite <- !app_assoc. reflexivity.
Qed.

(* ===================================================================== *)
(** ** Further properties of the paths                                    *)
(* ===================================================================== *)

Lemma rfind_from_last_index (c : ascii) (s : string) (i last : Z) :
  rfind_from c s i last =
  match last_index c s with
  | Some j => (i + Z.of_nat j)%Z
  | None => last
  end.
Proof.
  revert i last. induction s as [|a s IH]; intros i last; simpl.
  - reflexivity.
  - rewrite IH. destruct (last_index c s) as [j|].
    + lia.
    + destruct (Ascii.eqb a c); [lia|reflexivity].
Qed.

Lemma rfind_last_index (s : string) (c : ascii) :
  rfind s c =
  match last_index c s with
  | Some j => Z.of_nat j
  | None => (-1)%Z
  end.
Proof.
  unfold rfind. rewrite rfind_from_last_index.
  destruct (last_index c s); reflexivity.
Qed.

Lemma last_index_lt (c : ascii) (s : string) (j : nat) :
  last_index c s = Some j -> j < String.length s.
Proof.
  revert j. induction s as [|a s IH]; intros j; simpl; [discriminate|].
  destruct (last_index c s) as [j'|].
  - intros [= <-]. specialize (IH j' eq_refl). lia.
  - destruct (Ascii.eqb a c); [intros [= <-]; lia|discriminate].
Qed.

Lemma substring_all (s : string) : substring 0 (String.length s) s = s.
Proof. induction s as [|a s IH]; simpl; [reflexivity|rewrite IH; reflexivity]. Qed.

Lemma substring_split (s : string) (n : nat) :
  n <= String.length s ->
  (substring 0 n s ++ substring n (String.length s - n) s)%string = s.
Proof.
  revert n. induction s as [|a s IH]; intros [|n] Hn; simpl in *.
  - reflexivity.
  - lia.
  - rewrite substring_all. reflexivity.
  - rewrite IH by lia. reflexivity.
Qed.

(** From the last [c] on, a string is [c] followed by a [c]-free rest. *)
Lemma suffix_from_last_index (c : ascii) (s : string) (j : nat) :
  last_index c s = Some j ->
  exists rest,
    substring j (String.length s - j) s = String c rest /\ free_of c rest.
Proof.
  revert j. induction s as [|a s IH]; intros j; simpl; [discriminate|].
  destruct (last_index c s) as [j'|] eqn:Hlast.
  - intros [= <-]. simpl. apply IH. reflexivity.
  - destruct (Ascii.eqb a c) eqn:Hac; [|discriminate].
    intros [= <-]. apply Ascii.eqb_eq in Hac. subst a.
    exists s. rewrite substring_all. split; [reflexivity|exact Hlast].
Qed.

Lemma last_index_in_suffix (c : ascii) (s : string) (j k : nat) :
  j <= String.length s ->
  last_index c (substring j (String.length s - j) s) = Some k ->
  last_index c s = Some (j + k).
Proof.
  revert j. induction s as [|a s IH]; intros [|j] Hj; simpl in *.
  - discriminate.
  - lia.
  - rewrite substring_all. destruct (last_index c s); exact (fun H => H).
  - intros Hk. assert (Hj' : j <= String.length s) by lia.
    rewrite (IH j Hj' Hk). reflexivity.
Qed.

Lemma append_nil_r_local (s : string) : (s ++ "")%string = s.
Proof. induction s as [|a s IH]; simpl; [reflexivity|rewrite IH; reflexivity]. Qed.

(** What [os.path.splitext] returns: the two parts make up the path, and
    the second is empty or a dot followed by characters that are neither
    dots nor separators. *)
Lemma splitext_parts (p : string) :
  (fst (splitext p) ++ snd (splitext p))%string = p /\
  (snd (splitext p) = "" \/
   exists rest,
     snd (splitext p) = String "."%char rest /\
     free_of "."%char rest /\ free_of "/"%char rest).
Proof.
  unfold splitext, _splitext. rewrite !rfind_last_index.
  destruct (last_index "."%char p) as [d|] eqn:Hdot.
  2:{ replace (_ <? -1)%Z with false
        by (symmetry; apply Z.ltb_ge; destruct (last_index "/"%char p); lia).
      simpl. rewrite append_nil_r_local. auto. }
  destruct (_ <? Z.of_nat d)%Z eqn:Hlt;
    [|simpl; rewrite append_nil_r_local; auto].
  match goal with
  | |- context [skip_leading_dots ?a ?b ?c] =>
      destruct (skip_leading_dots a b c)
  end; [|simpl; rewrite append_nil_r_local; auto].
  pose proof (last_index_lt _ _ _ Hdot) as Hd.
  cbn [fst snd]. unfold slice_to, slice_from. rewrite Nat2Z.id. split.
  - apply substring_split. lia.
  - right. destruct (suffix_from_last_index _ _ _ Hdot) as (rest & Hrest & Hfree).
    exists rest. split; [exact Hrest|]. split; [exact Hfree|].
    unfold free_of. destruct (last_index "/"%char rest) as [k|] eqn:Hk;
      [exfalso|reflexivity].
    assert (Hsep : last_index "/"%char p = Some (d + S k)).
    { apply last_index_in_suffix; [lia|]. rewrite Hrest. simpl.
      rewrite Hk. reflexivity. }
    rewrite Hsep in Hlt. apply Z.ltb_lt in Hlt. lia.
Qed.


Lemma last_index_app_free (c : ascii) (s t : string) :
  free_of c t -> last_index c (s ++ t) = last_index c s.
Proof.
  intros Hfree. induction s as [|a s IH]; simpl.
  - exact Hfree.
  - rewrite IH. reflexivity.
Qed.

Lemma substring_prefix_app (s t : string) (n : nat) :
  n <= String.length s -> substring 0 n (s ++ t) = substring 0 n s.
Proof.
  revert n. induction s as [|a s IH]; intros [|n] Hn; simpl in *.
  - destruct t; reflexivity.
  - lia.
  - reflexivity.
  - rewrite IH by lia. reflexivity.
Qed.

(** Taking a separator-free tail off a path leaves its directory as it
    is. *)
Lemma dirname_app_free (s t : string) :
  free_of "/"%char t -> dirname (s ++ t) = dirname s.
Proof.
  intros Hfree. unfold dirname. rewrite !rfind_last_index.
  rewrite (last_index_app_free _ s t Hfree).
  assert (Hhead : slice_to (s ++ t)
                    (match last_index "/"%char s with
                     | Some j => Z.of_nat j
                     | None => -1
                     end + 1)
                  = slice_to s
                      (match last_index "/"%char s with
                       | Some j => Z.of_nat j
                       | None => -1
                       end + 1)).
  { unfold slice_to. apply substring_prefix_app.
    destruct (last_index "/"%char s) as [j|] eqn:Hj.
    - apply last_index_lt in Hj. lia.
    - simpl. lia. }
  rewrite Hhead. reflexivity.
Qed.

(** X18: the save dialog's answer loses exactly one extension.  The path
    stored as output file, followed by what was cut off, is the path the
    dialog returned; what was cut off is nothing, or a dot followed by
    characters that are neither dots nor separators (so a name with two
    extensions keeps the first); and the directory remembered for the next
    dialog is the directory of the stored output file. *)
Theorem select_output_file_cuts_one_extension (self : View) (path : string) :
  exists ext,
    path = (output_file (View_select_output_file self path) ++ ext)%string /\
    (ext = "" \/
     exists rest,
       ext = String "."%char rest /\
       free_of "."%char rest /\ free_of "/"%char rest) /\
    working_dir (View_select_output_file self path) =
    dirname (output_file (View_select_output_file self path)).
Proof.
  destruct (splitext_parts path) as [Hparts Hext].
  exists (snd (splitext path)). cbn [View_select_output_file output_file working_dir].
  split; [symmetry; exact Hparts|]. split; [exact Hext|].
  rewrite <- Hparts at 1. apply dirname_app_free.
  destruct Hext as [-> | (rest & -> & _ & Hfree)].
  - reflexivity.
  - unfold free_of in *. simpl. rewrite Hfree. reflexivity.
Qed.


End Program.

(* ===================================================================== *)
(** ** Runs on concrete inputs                                            *)
(* ===================================================================== *)

(** C4: grouping is by adjacency, not by unique code: on
    [(0,0,"A"), (1,1,"A"), (2,2,"B"), (3,3,"A")] the builder returns the
    three series ("A", [(0,0), (1,1)]), ("B", [(2,2)]), ("A", [(3,3)]), in
    that order. *)
Theorem make_series_groups_by_adjacency :
  make_series Z Z.eqb
    [ [VNum 0; VNum 0; VStr "A"]; [VNum 1; VNum 1; VStr "A"];
      [VNum 2; VNum 2; VStr "B"]; [VNum 3; VNum 3; VStr "A"] ]%Z
  = Ok [ (VStr "A", [[VNum 0; VNum 0]; [VNum 1; VNum 1]]);
         (VStr "B", [[VNum 2; VNum 2]]);
         (VStr "A", [[VNum 3; VNum 3]]) ]%Z.
Proof. reflexivity. Qed.

(** The form after the user picked [/data/profile.csv] as input and typed
    [/home/maia/transect_2.5km.png] in the save dialog. *)
Lemma view_after_both_dialogs :
  View_select_output_file
    (View_select_input_file (View_init "/home/maia") "/data/profile.csv")
    "/home/maia/transect_2.5km.png"
  = {| selected_file := "/data/profile.csv";
       output_file := "/home/maia/transect_2.5km";
       input_dialog := "You've selected: /data/profile.csv";
       output_dialog := "Plot will be saved to: /home/maia/transect_2.5km.png";
       working_dir := "/home/maia";
       legend_position := "Best" |}.
Proof. reflexivity. Qed.

(** C2: for the path [/home/maia/transect_2.5km.png] chosen in the save
    dialog, the form announces [/home/maia/transect_2.5km.png], but the
    plot action hands [/home/maia/transect_2.5km] to [savefig]: only the
    last extension was stripped and no extension was appended to the path
    itself, so the path handed over does not end in [.png]. *)
Theorem savefig_path_lacks_the_png_extension :
  let self :=
    View_select_output_file
      (View_select_input_file (View_init "/home/maia") "/data/profile.csv")
      "/home/maia/transect_2.5km.png" in
  output_dialog self = "Plot will be saved to: /home/maia/transect_2.5km.png" /\
  View_plot Q demo_float demo_float_eq demo_float_str demo_set_iter
            demo_open_csv demo_open_workbook demo_backend
            (code_colors_shipped Q demo_div255) self []
  = (Ok tt,
     [ plt_subplots; ax_set_xlim 0 20250; ax_set_ylim 120 530;
       plt_plot [VNum 0; VNum 100] [VNum 200; VNum 210]
                [130 # 255; 130 # 255; 130 # 255];
       plt_plot [VNum 200] [VNum 250] [43 # 255; 133 # 255; 161 # 255];
       plt_plot [VNum 300] [VNum 240] [130 # 255; 130 # 255; 130 # 255];
       ax_legend [[130 # 255; 130 # 255; 130 # 255];
                  [43 # 255; 133 # 255; 161 # 255]]
                 [VStr "Q3a"; VStr "Q7u"] "best";
       plt_xlabel "Distance, East-West (m)"; plt_ylabel "Elevation (m)";
       plt_savefig "/home/maia/transect_2.5km"; plt_show ]%Q) /\
  endswith "/home/maia/transect_2.5km" ".png" = false.
Proof.
  split; [reflexivity|]. split; [vm_compute; reflexivity|reflexivity].
Qed.

(** The reader on the four-row file of the demonstration machine. *)
Lemma read_file_csv_reads_every_row_witness :
  exists data,
    read_file_csv Q demo_float demo_open_csv "/data/profile.csv" = Ok data /\
    List.length data = 4 /\
    Forall2 (parsed_row demo_float)
            [["0"; "200"; "Q3a"]; ["100"; "210"; "Q3a"];
             ["200"; "250"; "Q7u"]; ["300"; "240"; "Q3a"]] data /\
    (snd (splitext "/data/profile.csv") = ".csv" ->
     read_file Q demo_float demo_open_csv demo_open_workbook
               "/data/profile.csv" = Ok data).
Proof.
  apply (read_file_csv_reads_every_row
           Q demo_float demo_open_csv demo_open_workbook
           "/data/profile.csv" demo_header
           [["0"; "200"; "Q3a"]; ["100"; "210"; "Q3a"];
            ["200"; "250"; "Q7u"]; ["300"; "240"; "Q3a"]]).
  - reflexivity.
  - reflexivity.
Defined.

(** The reader on the file whose second data row has [n/a] for an
    elevation. *)
Lemma read_file_csv_malformed_row_witness :
  Exists (malformed_row demo_float)
         [["0"; "200"; "Q3a"]; ["100"; "n/a"; "Q3a"]] /\
  read_file_csv Q demo_float demo_open_csv "/data/broken.csv" =
  Raise (PlottingError "Could not read file: /data/broken.csv") /\
  (snd (splitext "/data/broken.csv") = ".csv" ->
   read_file Q demo_float demo_open_csv demo_open_workbook "/data/broken.csv" =
   Raise (PlottingError "Could not read file: /data/broken.csv")).
Proof.
  assert (Hbad : Exists (malformed_row demo_float)
                        [["0"; "200"; "Q3a"]; ["100"; "n/a"; "Q3a"]]).
  { apply Exists_cons_tl, Exists_cons_hd. right.
    exists "100", "n/a", "Q3a". split; [reflexivity|]. right. reflexivity. }
  split; [exact Hbad|].
  apply (read_file_csv_malformed_row_fails_whole_file
           Q demo_float demo_open_csv demo_open_workbook
           "/data/broken.csv" demo_header
           [["0"; "200"; "Q3a"]; ["100"; "n/a"; "Q3a"]]).
  - reflexivity.
  - exact Hbad.
Defined.

(** The legend for series with codes B, A, B under the configuration
    A, B, with a set that hands out B before A. *)
Lemma make_legend_witness :
  demo_set_iter [VStr "B"; VStr "A"; VStr "B"] = [VStr "B"; VStr "A"] /\
  exists custom_lines,
    snd (make_legend Q demo_float_eq demo_float_str demo_set_iter demo_backend
           (Colors_init Q [("A", [1; 0; 0]); ("B", [0; 0; 1])]%Q)
           [ (VStr "B", [[VNum 0; VNum 5]]);
             (VStr "A", [[VNum 1; VNum 6]]);
             (VStr "B", [[VNum 2; VNum 7]]) ]%Q
           "best" [])
    = [ax_legend custom_lines [VStr "A"; VStr "B"] "best"].
Proof.
  split; [reflexivity|].
  destruct (make_legend_lists_each_code_once_in_registry_order
              Q demo_float_eq demo_float_str demo_set_iter demo_backend
              (Colors_init Q [("A", [1; 0; 0]); ("B", [0; 0; 1])]%Q)
              [("A", [1; 0; 0]); ("B", [0; 0; 1])]%Q
              [ (VStr "B", [[VNum 0; VNum 5]]);
                (VStr "A", [[VNum 1; VNum 6]]);
                (VStr "B", [[VNum 2; VNum 7]]) ]%Q
              "best" [])
    as (labels & custom_lines & Htrace & _ & _ & _ & _ & Horder).
  - reflexivity.
  - change (NoDup [@VStr Q "B"; VStr "A"]).
    constructor; [simpl; intros [H|[]]; discriminate H|].
    constructor; [simpl; intros []|constructor].
  - intros c. change (In c [VStr "B"; VStr "A"] <->
                      In c [VStr "B"; VStr "A"; VStr "B"]).
    simpl. split; intros H; repeat destruct H as [H|H]; auto; destruct H.
  - intros c H. simpl in *. repeat destruct H as [H|H]; auto; destruct H.
  - exists custom_lines. rewrite <- (Horder eq_refl eq_refl). exact Htrace.
Defined.

(** The registry built from the shipped table, asked for a code it has
    and for one it has not. *)
Lemma Colors_lookups_witness :
  (Colors_getitem Q demo_float_eq demo_float_str
     (Colors_init Q (code_colors_scaled Q demo_div255)) (VStr "Q2x") =
   Raise (PlottingError
            "Could not find code: Q2x, you may need to add it to 'code_colors'") /\
   Colors_index Q demo_float_eq demo_float_str
     (Colors_init Q (code_colors_scaled Q demo_div255)) (VStr "Q2x") =
   Raise (PlottingError
            "Could not find code: Q2x, you may need to add it to 'code_colors'")) /\
  (exists color rank,
      Colors_getitem Q demo_float_eq demo_float_str
        (Colors_init Q (code_colors_scaled Q demo_div255)) (VStr "Q7u") =
      Ok color /\
      Colors_index Q demo_float_eq demo_float_str
        (Colors_init Q (code_colors_scaled Q demo_div255)) (VStr "Q7u") =
      Ok rank).
Proof.
  split.
  - apply (Colors_lookups_fail_exactly_on_unknown_codes
             Q demo_float_eq demo_float_str
             (code_colors_scaled Q demo_div255) (VStr "Q2x")).
    simpl. intros H. repeat destruct H as [H|H]; try discriminate H. exact H.
  - apply (Colors_lookups_fail_exactly_on_unknown_codes
             Q demo_float_eq demo_float_str
             (code_colors_scaled Q demo_div255) (VStr "Q7u")).
    simpl. do 2 right. left. reflexivity.
Defined.

(** Paths as the dialogs return them. *)
Example splitext_csv :
  splitext "/data/profile.csv" = ("/data/profile", ".csv").
Proof. reflexivity. Qed.

Example splitext_hidden_file :
  splitext "/data/.profile" = ("/data/.profile", "").
Proof. reflexivity. Qed.

Example splitext_inner_dot :
  splitext "/home/maia/transect_2.5km.png" = ("/home/maia/transect_2.5km", ".png").
Proof. reflexivity. Qed.

Example dirname_of_file : dirname "/data/runs/profile.csv" = "/data/runs".
Proof. reflexivity. Qed.

Example lower_position : lower "Upper Right" = "upper right".
Proof. reflexivity. Qed.

(* ===================================================================== *)
(** ** Runs of the further properties                                     *)
(* ===================================================================== *)

Lemma read_file_raises_only_could_not_read_witness :
  read_file Q demo_float demo_open_csv demo_open_workbook "/data/missing.csv"
  = Raise (PlottingError "Could not read file: /data/missing.csv") /\
  PlottingError "Could not read file: /data/missing.csv"
  = PlottingError ("Could not read file: " ++ "/data/missing.csv").
Proof.
  split; [reflexivity|].
  apply (read_file_raises_only_could_not_read
           Q demo_float demo_open_csv demo_open_workbook "/data/missing.csv").
  reflexivity.
Defined.

Lemma read_file_on_csv_path_witness :
  snd (splitext "/data/broken.csv") = ".csv" /\
  read_file Q demo_float demo_open_csv demo_open_workbook "/data/broken.csv"
  = read_file_csv Q demo_float demo_open_csv "/data/broken.csv".
Proof.
  split; [reflexivity|].
  apply (read_file_on_csv_path_is_read_file_csv
           Q demo_float demo_open_csv demo_open_workbook "/data/broken.csv").
  reflexivity.
Defined.

Lemma read_file_xls_witness :
  read_file_xls Q demo_open_workbook_survey "/data/survey.xls"
  = Ok [ [VNum 0; VNum 200; VStr "Q3a"]; [VNum 100; VNum 210; VStr "Q7u"] ]%Q /\
  (snd (splitext "/data/survey.xls") = ".xls" ->
   read_file Q demo_float demo_open_csv demo_open_workbook_survey
             "/data/survey.xls"
   = Ok [ [VNum 0; VNum 200; VStr "Q3a"]; [VNum 100; VNum 210; VStr "Q7u"] ]%Q) /\
  (List.length demo_sheet <= 1 ->
   read_file_xls Q demo_open_workbook_survey "/data/survey.xls" = Ok []).
Proof.
  apply (read_file_xls_returns_rows_after_header
           Q demo_float demo_open_csv demo_open_workbook_survey
           "/data/survey.xls" demo_sheet []).
  reflexivity.
Defined.

Lemma read_file_csv_header_only_witness :
  read_file_csv Q demo_float (fun _ => Ok [demo_header]) "/data/empty.csv"
  = Ok [].
Proof.
  apply (read_file_csv_without_data_rows_is_empty
           Q demo_float (fun _ => Ok [demo_header]) "/data/empty.csv"
           [demo_header]).
  - reflexivity.
  - simpl. lia.
Defined.

Lemma make_series_short_rows_witness :
  (exists data_series,
      make_series Q demo_float_eq
        [ [VNum 0; VNum 200; VStr "Q3a"]; [VNum 100; VNum 210; VStr "Q7u"] ]%Q
      = Ok data_series) /\
  make_series Q demo_float_eq
    [ [VNum 0; VNum 200; VStr "Q3a"]; [VNum 100] ]%Q
  = Raise (IndexError "list index out of range").
Proof.
  split.
  - apply (make_series_raises_exactly_on_short_rows Q demo_float_eq).
    repeat constructor.
  - apply (make_series_raises_exactly_on_short_rows Q demo_float_eq).
    apply Exists_cons_tl, Exists_cons_hd. simpl. lia.
Defined.

Lemma make_series_keeps_every_row_witness :
  List.concat
    (map snd [ (@VStr Q "Q3a", [[VNum 0; VNum 200]]);
               (VStr "Q7u", [[VNum 100; VNum 210]]) ]%Q)
  = map (firstn 2) (skipn 1 demo_sheet) /\
  Forall (fun s : series Q =>
            snd s <> [] /\
            Forall (fun point => List.length point = 2) (snd s))
         [ (VStr "Q3a", [[VNum 0; VNum 200]]);
           (VStr "Q7u", [[VNum 100; VNum 210]]) ]%Q.
Proof.
  apply (make_series_keeps_every_row_in_order Q demo_float_eq).
  reflexivity.
Defined.

Lemma Colors_of_distinct_codes_witness :
  _colors (Colors_init Q demo_colors) = demo_colors /\
  Colors_index Q demo_float_eq demo_float_str (Colors_init Q demo_colors)
               (VStr "B") = Ok 1 /\
  Colors_getitem Q demo_float_eq demo_float_str (Colors_init Q demo_colors)
                 (VStr "B") = Ok [0; 0; 1]%Q.
Proof.
  apply (Colors_of_distinct_codes_keeps_the_configuration
           Q demo_float_eq demo_float_str demo_colors 1 "B" [0; 0; 1]%Q).
  - simpl. constructor; [intros [H|[]]; discriminate H|].
    constructor; [intros []|constructor].
  - reflexivity.
Defined.

Lemma Colors_later_entry_witness :
  _keys (Colors_init Q (demo_colors ++ [("A", [0; 1; 0]%Q)]))
  = _keys (Colors_init Q demo_colors) /\
  Colors_getitem Q demo_float_eq demo_float_str
                 (Colors_init Q (demo_colors ++ [("A", [0; 1; 0]%Q)]))
                 (VStr "A") = Ok [0; 1; 0]%Q.
Proof.
  apply (Colors_later_entry_replaces_the_colour_only
           Q demo_float_eq demo_float_str demo_colors "A" [0; 1; 0]%Q).
  simpl. left. reflexivity.
Defined.

(** A legend asked for series coded C under the configuration A, B. *)
Lemma make_legend_without_a_colour_witness :
  exists code,
    In code (map fst [(@VStr Q "C", [[VNum 0; VNum 5]]%Q)]) /\
    ~ In code (map VStr (map fst demo_colors)) /\
    make_legend Q demo_float_eq demo_float_str demo_set_iter demo_backend
                (Colors_init Q demo_colors)
                [(VStr "C", [[VNum 0; VNum 5]]%Q)] "best" []
    = (Raise (PlottingError
                ("Could not find code: " ++ format_value Q demo_float_str code
                 ++ ", you may need to add it to 'code_colors'")),
       []).
Proof.
  apply (make_legend_without_a_colour_draws_no_legend
           Q demo_float_eq demo_float_str demo_set_iter demo_backend
           (Colors_init Q demo_colors) demo_colors).
  - reflexivity.
  - intros c. change (In c [@VStr Q "C"] <-> In c [@VStr Q "C"]). tauto.
  - exists (VStr "C", [[VNum 0; VNum 5]]%Q). split; [left; reflexivity|].
    simpl. intros H. repeat destruct H as [H|H]; try discriminate H. exact H.
Defined.

(** The four-row file drawn with the shipped colours and no output file. *)
Lemma do_plot_full_chart_witness :
  exists labels,
    do_plot Q demo_float demo_float_eq demo_float_str demo_set_iter
            demo_open_csv demo_open_workbook demo_backend
            (code_colors_shipped Q demo_div255)
            "/data/profile.csv" "best" "" []
    = (Ok tt,
       ([] ++ axes_setup Q
           ++ map (plot_call Q demo_float_eq demo_float_str
                             (code_colors_shipped Q demo_div255))
                  [ (VStr "Q3a", [[VNum 0; VNum 200]; [VNum 100; VNum 210]]);
                    (VStr "Q7u", [[VNum 200; VNum 250]]);
                    (VStr "Q3a", [[VNum 300; VNum 240]]) ]%Q
           ++ [ax_legend
                 (map (color_of Q demo_float_eq demo_float_str
                                (code_colors_shipped Q demo_div255)) labels)
                 labels "best"]
           ++ finishing_calls Q "" ++ [plt_show])%list) /\
    NoDup labels /\
    (forall c,
        In c labels <->
        In c (map fst
                [ (@VStr Q "Q3a", [[VNum 0; VNum 200]; [VNum 100; VNum 210]]);
                  (VStr "Q7u", [[VNum 200; VNum 250]]);
                  (VStr "Q3a", [[VNum 300; VNum 240]]) ]%Q)).
Proof.
  apply (do_plot_makes_the_calls_of_a_full_chart
           Q demo_float demo_float_eq demo_float_str demo_set_iter
           demo_open_csv demo_open_workbook demo_backend
           (code_colors_shipped Q demo_div255)
           (code_colors_scaled Q demo_div255)
           [ [VNum 0; VNum 200; VStr "Q3a"]; [VNum 100; VNum 210; VStr "Q3a"];
             [VNum 200; VNum 250; VStr "Q7u"]; [VNum 300; VNum 240; VStr "Q3a"] ]%Q).
  - reflexivity.
  - intros tr ev. reflexivity.
  - reflexivity.
  - reflexivity.
  - change (NoDup [@VStr Q "Q3a"; VStr "Q7u"]).
    constructor; [intros [H|[]]; discriminate H|].
    constructor; [intros []|constructor].
  - intros c. change (In c [@VStr Q "Q3a"; VStr "Q7u"] <->
                      In c [@VStr Q "Q3a"; VStr "Q7u"; VStr "Q3a"]).
    simpl. tauto.
  - intros c H. simpl in H. simpl.
    repeat destruct H as [H|H]; subst; tauto.
Defined.

(** The Plot button pressed on the fresh form, before any file was
    chosen. *)
Lemma View_plot_on_unreadable_input_witness :
  View_plot Q demo_float demo_float_eq demo_float_str demo_set_iter
            demo_open_csv demo_open_workbook demo_backend
            (code_colors_shipped Q demo_div255)
            (View_init "/home/maia") []
  = (Ok tt, [showerror "Could not read file: "]).
Proof.
  apply (View_plot_on_unreadable_input_only_reports
           Q demo_float demo_float_eq demo_float_str demo_set_iter
           demo_open_csv demo_open_workbook demo_backend
           (code_colors_shipped Q demo_div255)
           (View_init "/home/maia") []
           (PlottingError "Could not read file: ")).
  reflexivity.
Defined.

(** The four-row file drawn when only Q3a has a colour. *)
Lemma View_plot_unconfigured_code_witness :
  View_plot Q demo_float demo_float_eq demo_float_str demo_set_iter
            demo_open_csv demo_open_workbook demo_backend
            (Colors_init Q [("Q3a", [1; 0; 0]%Q)])
            (View_select_input_file (View_init "/home/maia")
                                    "/data/profile.csv") []
  = (Ok tt,
     [ plt_subplots; ax_set_xlim 0 20250; ax_set_ylim 120 530;
       plt_plot [VNum 0; VNum 100] [VNum 200; VNum 210] [1; 0; 0];
       showerror
         "Could not find code: Q7u, you may need to add it to 'code_colors'" ]%Q).
Proof.
  apply (View_plot_draws_up_to_the_first_unconfigured_code
           Q demo_float demo_float_eq demo_float_str demo_set_iter
           demo_open_csv demo_open_workbook demo_backend
           (Colors_init Q [("Q3a", [1; 0; 0]%Q)])
           [("Q3a", [1; 0; 0]%Q)]
           (View_select_input_file (View_init "/home/maia") "/data/profile.csv")
           [ [VNum 0; VNum 200; VStr "Q3a"]; [VNum 100; VNum 210; VStr "Q3a"];
             [VNum 200; VNum 250; VStr "Q7u"]; [VNum 300; VNum 240; VStr "Q3a"] ]%Q
           [ (VStr "Q3a", [[VNum 0; VNum 200]; [VNum 100; VNum 210]]) ]%Q
           (VStr "Q7u", [[VNum 200; VNum 250]]%Q)
           [ (VStr "Q3a", [[VNum 300; VNum 240]]) ]%Q
           []).
  - reflexivity.
  - intros tr ev. reflexivity.
  - reflexivity.
  - reflexivity.
  - intros s' [<-|[]]. simpl. left. reflexivity.
  - simpl. intros [H|[]]. discriminate H.
Defined.
